(** * squeeze-hut: the squeeze indicator and the market scan of [app.py]

    A shallow embedding of [calculate_squeeze], [send_discord_alert],
    [scan_markets], [get_signals] and the global [squeeze_data] of
    [src/app.py], with the properties of the specification stated and
    settled against it.

    Numbers.  A float64 cell is a rational [Q]; a cell that may be NaN
    is an [option Q] with [None] for NaN.  Arithmetic is exact, the
    square root used by the rolling standard deviation is a parameter
    [sqrtQ] of the development.  The frame handed to the engine is
    dense (the source calls [dropna]), so its columns are [list Q].

    Dictionaries.  A Python [dict] with string keys is a [gmap string _].

    Effects.  Network, clock and webhook are functions on an abstract
    [World]; the calls the scan makes are recorded in a trace. *)

From Stdlib Require Import QArith Qround ZArith List Bool Ascii String Lqa.
From stdpp Require Import gmap strings list fin_maps relations.

#[local] Set Warnings "-clear-no-such-hyp,-register-all".

Local Open Scope Z_scope.

(** ** Python values and exceptions *)

Module Py.

(** The values a details dictionary holds. *)
Inductive pyval : Type :=
  | PyBool (b : bool)
  | PyInt (z : Z)
  | PyFloat (q : Q)
  | PyStr (s : string).

(** The outcome of a block of code: a value, or a raised exception
    with its [str(e)]. *)
Inductive result (A : Type) : Type :=
  | Ok (a : A)
  | Raise (msg : string).

Arguments Ok {A} a.
Arguments Raise {A} msg.

Definition bind {A B : Type} (k : A -> result B) (r : result A) : result B :=
  match r with
  | Ok a => k a
  | Raise msg => Raise msg
  end.

#[global] Instance result_bind : MBind result := @bind.
#[global] Instance result_ret : MRet result := @Ok.

(** [d[key]] on a dictionary: [KeyError] when the key is absent. *)
Definition getitem {V : Type} (d : gmap string V) (key : string) : result V :=
  match d !! key with
  | Some v => Ok v
  | None => Raise ("'" ++ key ++ "'")
  end.

(** [x < y] on floats. *)
Definition Qltb (x y : Q) : bool :=
  match (x ?= y)%Q with
  | Lt => true
  | _ => false
  end.

(** [int(x)] on a finite float: truncation towards zero.  A cell is
    a rational, so the infinities of float64, on which [int] raises, are
    outside the frames of this development. *)
Definition int_of_float (x : Q) : Z := Z.quot (Qnum x) (Z.pos (Qden x)).

(** [str.strip()] and [str.upper()] on ASCII text: the blanks and
    letters of ASCII only, not those of the rest of Unicode. *)
Definition is_space (c : ascii) : bool :=
  let n := nat_of_ascii c in
  ((9 <=? n) && (n <=? 13) || (28 <=? n) && (n <=? 32))%nat.

Fixpoint lstrip (s : string) : string :=
  match s with
  | EmptyString => EmptyString
  | String c s' => if is_space c then lstrip s' else s
  end.

Fixpoint rstrip (s : string) : string :=
  match s with
  | EmptyString => EmptyString
  | String c s' =>
      match rstrip s' with
      | EmptyString => if is_space c then EmptyString else String c EmptyString
      | r => String c r
      end
  end.

Definition strip (s : string) : string := rstrip (lstrip s).

Definition upper_ascii (c : ascii) : ascii :=
  let n := nat_of_ascii c in
  if ((97 <=? n) && (n <=? 122))%nat then ascii_of_nat (n - 32) else c.

Fixpoint upper (s : string) : string :=
  match s with
  | EmptyString => EmptyString
  | String c s' => String (upper_ascii c) (upper s')
  end.

End Py.

Import Py.

Abbreviation Details := (gmap string pyval).
Abbreviation Snapshot := (gmap string (gmap string pyval)).

(** ** The pandas operations the engine uses *)

Module Pandas.

(** One row of the frame built by [fetch_yahoo_data] after [dropna]. *)
Record Candle : Type := mkCandle {
  close : Q;
  high : Q;
  low : Q;
  volume : Q
}.

Definition DataFrame : Type := list Candle.

(** [s.iloc[-1]]. *)
Definition iloc_last {A : Type} (s : list A) : result A :=
  match last s with
  | Some a => Ok a
  | None => Raise "single positional indexer is out-of-bounds"
  end.

(** Element-wise operations; [None] is NaN and propagates, and a
    comparison with NaN is [False]. *)
Definition nan2 (f : Q -> Q -> Q) (x y : option Q) : option Q :=
  match x, y with
  | Some u, Some v => Some (f u v)
  | _, _ => None
  end.

Definition dense (s : list Q) : list (option Q) := Some <$> s.
Definition sadd (a b : list (option Q)) : list (option Q) := zip_with (nan2 Qplus) a b.
Definition ssub (a b : list (option Q)) : list (option Q) := zip_with (nan2 Qminus) a b.
Definition smul (k : Q) (a : list (option Q)) : list (option Q) :=
  option_map (Qmult k) <$> a.

Definition fgt (x y : option Q) : bool :=
  match x, y with
  | Some u, Some v => Qltb v u
  | _, _ => false
  end.

Definition sgt (a b : list (option Q)) : list bool := zip_with fgt a b.
Definition slt (a b : list (option Q)) : list bool := zip_with fgt b a.
Definition sand (a b : list bool) : list bool := zip_with andb a b.

(** [s.ewm(span=span, adjust=False).mean()] on a dense series:
    [y0 = x0], [yt = (1-a)*y(t-1) + a*xt] with [a = 2/(span+1)];
    pandas refuses a span below 1. *)
Definition alpha (span : Z) : Q := (2 / (inject_Z span + 1))%Q.

Fixpoint ewm_from (a prev : Q) (xs : list Q) : list Q :=
  match xs with
  | [] => []
  | x :: xs' =>
      let y := ((1 - a) * prev + a * x)%Q in
      y :: ewm_from a y xs'
  end.

Definition ewm_list (span : Z) (xs : list Q) : list Q :=
  match xs with
  | [] => []
  | x :: xs' => x :: ewm_from (alpha span) x xs'
  end.

Definition ewm_mean (span : Z) (xs : list Q) : result (list Q) :=
  if span <? 1 then Raise "span must satisfy: span >= 1"
  else Ok (ewm_list span xs).

(** [s.rolling(L)]: at row [i] the trailing window of [L] rows, NaN
    while fewer than [L] rows are available; pandas refuses a negative
    window. *)
Definition window (L i : nat) (xs : list Q) : list Q :=
  firstn L (skipn (i + 1 - L) xs).

Definition rolling_list (n : nat) (agg : list Q -> option Q) (xs : list Q)
  : list (option Q) :=
  (fun i => if (i + 1 <? n)%nat then None else agg (window n i xs))
    <$> seq 0 (length xs).

Definition rolling (L : Z) (agg : list Q -> option Q) (xs : list Q)
  : result (list (option Q)) :=
  if L <? 0 then Raise "window must be an integer 0 or greater"
  else Ok (rolling_list (Z.to_nat L) agg xs).

Definition qsum (xs : list Q) : Q := fold_right Qplus 0%Q xs.

Definition qlen (xs : list Q) : Q := inject_Z (Z.of_nat (length xs)).

(** [.mean()] of a window, exact; pandas keeps a running float64 sum,
    whose last bits this development does not follow. *)
Definition mean (xs : list Q) : option Q :=
  match xs with
  | [] => None
  | _ => Some (qsum xs / qlen xs)%Q
  end.

Section Std.

Variable sqrtQ : Q -> Q.

(** [.std()] of a window: the sample standard deviation (ddof = 1),
    NaN on fewer than two rows. *)
Definition std (xs : list Q) : option Q :=
  match mean xs with
  | None => None
  | Some m =>
      if (length xs <=? 1)%nat then None
      else Some (sqrtQ (qsum ((fun x => ((x - m) * (x - m))%Q) <$> xs)
                        / (qlen xs - 1)))%Q
  end.

End Std.

End Pandas.

Import Pandas.

(** ** The indicator engine: [calculate_squeeze] *)

Section Engine.

Variable sqrtQ : Q -> Q.

(** The body of the [try] block of [calculate_squeeze]. *)
Definition calculate_squeeze_try (df : DataFrame) (L : Z) (bb kc vol : Q)
  : result (bool * Details) :=
  if Z.of_nat (length df) <? L + 26 then Ok (false, ∅)
  else
    (* Keltner Channels *)
    ema ← ewm_mean L (close <$> df);
    atr ← rolling L mean ((fun c => (high c - low c)%Q) <$> df);
    let kc_upper := sadd (dense ema) (smul kc atr) in
    let kc_lower := ssub (dense ema) (smul kc atr) in
    (* Bollinger Bands *)
    sma ← rolling L mean (close <$> df);
    sd ← rolling L (std sqrtQ) (close <$> df);
    let bb_upper := sadd sma (smul bb sd) in
    let bb_lower := ssub sma (smul bb sd) in
    (* Squeeze: BB inside KC *)
    let in_squeeze := sand (sgt bb_lower kc_lower) (slt bb_upper kc_upper) in
    (* Volume surge *)
    vol_avg ← rolling L mean (volume <$> df);
    let high_vol := sgt (dense (volume <$> df)) (smul vol vol_avg) in
    (* MACD *)
    ema12 ← ewm_mean 12 (close <$> df);
    ema26 ← ewm_mean 26 (close <$> df);
    let macd := zip_with Qminus ema12 ema26 in
    signal ← ewm_mean 9 macd;
    let macd_bull := sgt (dense macd) (dense signal) in
    (* Final signal *)
    let squeeze_signal := sand (sand in_squeeze high_vol) macd_bull in
    flag ← iloc_last squeeze_signal;
    price ← iloc_last (close <$> df);
    volume_ ← iloc_last (volume <$> df);
    in_squeeze_ ← iloc_last in_squeeze;
    high_volume_ ← iloc_last high_vol;
    macd_bullish_ ← iloc_last macd_bull;
    signal_ ← iloc_last squeeze_signal;
    Ok (flag,
        ({[ "price" := PyFloat price;
            "volume" := PyInt (int_of_float volume_);
            "in_squeeze" := PyBool in_squeeze_;
            "high_volume" := PyBool high_volume_;
            "macd_bullish" := PyBool macd_bullish_;
            "signal" := PyBool signal_;
            "error" := PyBool false ]} : Details)).

(** [calculate_squeeze]: the body under its [except Exception] handler. *)
Definition calculate_squeeze (df : DataFrame) (L : Z) (bb kc vol : Q)
  : bool * Details :=
  match calculate_squeeze_try df L bb kc vol with
  | Ok r => r
  | Raise msg => (false, {[ "error" := PyBool true; "message" := PyStr msg ]})
  end.

End Engine.

(** ** The scan: [send_discord_alert], [scan_markets], [get_signals] *)

(** What a scan does that others can see: an assignment
    [temp_data[ticker] = details], a call of [send_discord_alert], and
    the assignment of [squeeze_data]. *)
Inductive Event : Type :=
  | EvRecord (ticker : string) (details : Details)
  | EvAlert (sym : string) (price : pyval)
  | EvPublish (snapshot : Snapshot).

(** The process: the global [squeeze_data], the outside world, and the
    trace of events so far. *)
Record System (World : Type) : Type := mkSystem {
  squeeze_data : Snapshot;
  world : World;
  trace : list Event
}.

Arguments mkSystem {World} _ _ _.
Arguments squeeze_data {World} _.
Arguments world {World} _.
Arguments trace {World} _.

(** The record stored for a ticker without usable data. *)
Definition no_data : Details :=
  {[ "error" := PyBool true;
     "message" := PyStr "No data available";
     "signal" := PyBool false ]}.

Section Scan.

Context {World : Type}.

Variable sqrtQ : Q -> Q.

(** [fetch_yahoo_data]: the request to the provider with its handler,
    [None] or the dense frame left by [dropna]. *)
Variable fetch_yahoo_data : string -> World -> option DataFrame * World.

(** [datetime.now().isoformat()]. *)
Variable now_isoformat : World -> string * World.

(** [requests.post] to the webhook; whether it succeeds is invisible
    to the caller. *)
Variable requests_post : string -> string -> pyval -> World -> World.

Variable TICKERS : list string.
Variable DISCORD_WEBHOOK : string.

(** [send_discord_alert]: nothing without a webhook; a price that
    [:.2f] cannot format raises inside the [try] and is dropped. *)
Definition send_discord_alert (sym : string) (price : pyval) (w : World) : World :=
  if String.eqb DISCORD_WEBHOOK "" then w
  else match price with
       | PyStr _ => w
       | _ => requests_post DISCORD_WEBHOOK sym price w
       end.

(** One turn of the [for] loop of [scan_markets]; [sys] carries the
    world and the trace, [temp] is [temp_data]. *)
Definition loop_body (raw : string) (temp : Snapshot) (sys : System World)
  : result (Snapshot * System World) :=
  let ticker := upper (strip raw) in
  let '(df, w1) := fetch_yahoo_data ticker (world sys) in
  let store d w tr :=
    (<[ticker := d]> temp, mkSystem (squeeze_data sys) w (tr ++ [EvRecord ticker d])) in
  match df with
  | None => Ok (store no_data w1 (trace sys))
  | Some d =>
      if (length d <? 50)%nat then Ok (store no_data w1 (trace sys))
      else
        let '(is_squeeze, details) := calculate_squeeze sqrtQ d 20 2 (3 # 2) (3 # 2) in
        let '(ts, w2) := now_isoformat w1 in
        let details := <["timestamp" := PyStr ts]> details in
        let '(temp', sys') := store details w2 (trace sys) in
        if is_squeeze then
          price ← getitem details "price";
          Ok (temp', mkSystem (squeeze_data sys')
                       (send_discord_alert ticker price (world sys'))
                       (trace sys' ++ [EvAlert ticker price]))
        else Ok (temp', sys')
  end.

Fixpoint scan_loop (tickers : list string) (temp : Snapshot) (sys : System World)
  : result (Snapshot * System World) :=
  match tickers with
  | [] => Ok (temp, sys)
  | raw :: rest =>
      '(temp', sys') ← loop_body raw temp sys;
      scan_loop rest temp' sys'
  end.

(** [with data_lock: squeeze_data = temp_data]. *)
Definition publish (temp : Snapshot) (sys : System World) : System World :=
  mkSystem temp (world sys) (trace sys ++ [EvPublish temp]).

Definition scan_markets (sys : System World) : result (System World) :=
  '(temp, sys') ← scan_loop TICKERS ∅ sys;
  Ok (publish temp sys').

(** [get_signals]: the copy [dict(squeeze_data)] taken under the lock. *)
Definition get_signals (sys : System World) : Snapshot := squeeze_data sys.

(** The process at start-up: [squeeze_data = {}]. *)
Definition initial (w : World) : System World := mkSystem ∅ w [].

(** A scan in progress: the tickers still to visit and [temp_data].
    Readers run between two steps; [None] is a finished scan. *)
Definition Job : Type := option (list string * Snapshot).

Definition start : Job := Some (TICKERS, ∅).

Inductive step : System World * Job -> System World * Job -> Prop :=
  | step_ticker sys raw rest temp temp' sys' :
      loop_body raw temp sys = Ok (temp', sys') ->
      step (sys, Some (raw :: rest, temp)) (sys', Some (rest, temp'))
  | step_publish sys temp :
      step (sys, Some ([], temp)) (publish temp sys, None).

(** The configured instruments as the keys they are stored under. *)
Definition instruments : gset string :=
  list_to_set ((fun raw => upper (strip raw)) <$> TICKERS).

(** The runs of one scan from a given process state. *)
Definition runs_to (sys0 sys : System World) (job : Job) : Prop :=
  rtc step (sys0, start) (sys, job).

End Scan.

(** ** Reading traces and details *)

Definition is_alert (e : Event) : bool :=
  match e with
  | EvAlert _ _ => true
  | _ => false
  end.

Definition is_publish (e : Event) : bool :=
  match e with
  | EvPublish _ => true
  | _ => false
  end.

(** The alert a recorded result calls for: one for a result with
    [error = False] and [signal = True], with its price. *)
Definition alert_for (e : Event) : option Event :=
  match e with
  | EvRecord ticker d =>
      match d !! "error", d !! "signal", d !! "price" with
      | Some (PyBool false), Some (PyBool true), Some p => Some (EvAlert ticker p)
      | _, _, _ => None
      end
  | _ => None
  end.

(** The shape of the dictionary of a Signal variant as
    [calculate_squeeze] returns it. *)
Definition signal_details (price : Q) (vol : Z) (sq hv mb sig : bool) : Details :=
  {[ "price" := PyFloat price;
     "volume" := PyInt vol;
     "in_squeeze" := PyBool sq;
     "high_volume" := PyBool hv;
     "macd_bullish" := PyBool mb;
     "signal" := PyBool sig;
     "error" := PyBool false ]}.

(** The shape of the dictionary of an Error variant. *)
Definition error_details (msg : string) : Details :=
  {[ "error" := PyBool true; "message" := PyStr msg ]}.

Definition is_record (e : Event) : bool :=
  match e with
  | EvRecord _ _ => true
  | _ => false
  end.

(** What the loop stores for a ticker: the no-data record, or a
    Signal variant with its timestamp. *)
Definition recorded_ok (d : Details) : Prop :=
  d = no_data
  \/ exists ts p v sq hv mb,
       d = <["timestamp" := PyStr ts]> (signal_details p v sq hv mb (sq && hv && mb)).

(** An Error variant carrying [msg]. *)
Definition is_error_variant (d : Details) (msg : string) : Prop :=
  d !! "error" = Some (PyBool true) /\ d !! "message" = Some (PyStr msg).

(** Every alert comes after the publication. *)
Definition alerts_after_publish (tr : list Event) : Prop :=
  forall i j sym price snap,
    tr !! i = Some (EvAlert sym price) ->
    tr !! j = Some (EvPublish snap) ->
    (j < i)%nat.

(** ** Concrete frames and a concrete world *)

(** A square root for running the engine on concrete frames: the
    integer square root at six decimals. *)
Definition sqrt6 (x : Q) : Q :=
  Z.sqrt (Qnum x * 10 ^ 12 / Z.pos (Qden x)) # 10 ^ 6.

Definition candle (c r v : Q) : Candle :=
  {| close := c; high := (c + r)%Q; low := (c - r)%Q; volume := v |}.

Definition df_signal : DataFrame :=
  replicate 49 (candle 100 (1 # 2) 1000) ++ [candle (1001 # 10) (1 # 2) 10000].

Definition df_swing : DataFrame :=
  concat (replicate 23 [candle 100 (3 # 10) 1000; candle 101 (3 # 10) 1000]).

(** A world that counts the calls made to it: the provider knows GME
    only, the clock is stopped. *)
Definition demo_fetch (sym : string) (w : nat) : option DataFrame * nat :=
  (if String.eqb sym "GME" then Some df_signal else None, S w).

Definition demo_now (w : nat) : string * nat := ("2024-01-02T09:31:00", S w).

Definition demo_post (url sym : string) (price : pyval) (w : nat) : nat := S w.

Definition demo_scan (tickers : list string) : result (System nat) :=
  scan_markets sqrt6 demo_fetch demo_now demo_post tickers "" (initial 0%nat).

(** ** The last row of the engine's series, in closed form *)

Definition last_window (L : Z) (xs : list Q) : list Q :=
  window (Z.to_nat L) (length xs - 1) xs.

Definition spread (c : Candle) : Q := (high c - low c)%Q.

(** [(bb_lower > kc_lower) & (bb_upper < kc_upper)] on one row. *)
Definition squeeze_test (ema atr sma sd : option Q) (bb kc : Q) : bool :=
  fgt (nan2 Qminus sma (option_map (Qmult bb) sd))
      (nan2 Qminus ema (option_map (Qmult kc) atr))
  && fgt (nan2 Qplus ema (option_map (Qmult kc) atr))
         (nan2 Qplus sma (option_map (Qmult bb) sd)).

Definition in_squeeze_row (sqrtQ : Q -> Q) (df : DataFrame) (L : Z) (bb kc : Q) : bool :=
  squeeze_test (last (ewm_list L (close <$> df)))
               (mean (last_window L (spread <$> df)))
               (mean (last_window L (close <$> df)))
               (std sqrtQ (last_window L (close <$> df)))
               bb kc.

Definition high_volume_row (df : DataFrame) (L : Z) (vol : Q) : bool :=
  fgt (last (volume <$> df))
      (option_map (Qmult vol) (mean (last_window L (volume <$> df)))).

Definition macd_row (df : DataFrame) : bool :=
  let macd := zip_with Qminus (ewm_list 12 (close <$> df)) (ewm_list 26 (close <$> df)) in
  fgt (last macd) (last (ewm_list 9 macd)).

(** ** The provider's response: the parsing in [fetch_yahoo_data] *)

(** What [r.json()] returns. *)
Inductive json : Type :=
  | JNull
  | JBool (b : bool)
  | JNum (q : Q)
  | JStr (s : string)
  | JArr (l : list json)
  | JObj (m : gmap string json).

(** What [fetch_yahoo_data] returns: [None], or the frame left by
    [dropna].  A frame with a column that is not an array of numbers
    and nulls has cells this development has no value for; it is kept
    apart as [Unmodelled]. *)
Inductive fetched : Type :=
  | Absent
  | Frame (df : DataFrame)
  | Unmodelled.

Module Provider.

(** [bool(x)]. *)
Definition truthy (j : json) : bool :=
  match j with
  | JNull => false
  | JBool b => b
  | JNum q => negb (Qeq_bool q 0)
  | JStr s => negb (String.eqb s "")
  | JArr l => match l with [] => false | _ => true end
  | JObj m => match map_to_list m with [] => false | _ => true end
  end.

(** [x[key]] with a string key: a dictionary answers or raises
    [KeyError], anything else raises [TypeError].  The texts are only
    printed by the handler. *)
Definition subscript (j : json) (key : string) : result json :=
  match j with
  | JObj m => getitem m key
  | _ => Raise "TypeError"
  end.

(** [x[0]]: the first item of a list, the first character of a
    string; [IndexError] when empty, [KeyError] on a dictionary, whose
    keys are strings, [TypeError] on the rest. *)
Definition subscript0 (j : json) : result json :=
  match j with
  | JArr (x :: _) => Ok x
  | JArr [] => Raise "IndexError"
  | JStr (String c _) => Ok (JStr (String c EmptyString))
  | JStr EmptyString => Raise "IndexError"
  | JObj _ => Raise "KeyError"
  | _ => Raise "TypeError"
  end.

Definition is_chart (j : json) : bool :=
  match j with
  | JStr s => String.eqb s "chart"
  | _ => false
  end.

(** ['chart' not in data]: a key of a dictionary, an item of a list,
    a substring of a string; [TypeError] on the rest. *)
Definition chart_not_in (data : json) : result bool :=
  match data with
  | JObj m => Ok (match m !! "chart" with Some _ => false | None => true end)
  | JArr l => Ok (negb (existsb is_chart l))
  | JStr s => Ok (match index 0 "chart" s with Some _ => false | None => true end)
  | _ => Raise "TypeError"
  end.

(** A cell of a numeric column: a number, or a null that becomes NaN. *)
Definition cell (j : json) : option (option Q) :=
  match j with
  | JNum q => Some (Some q)
  | JNull => Some None
  | _ => None
  end.

Definition column (j : json) : option (list (option Q)) :=
  match j with
  | JArr l => mapM cell l
  | _ => None
  end.

(** One row under [dropna]: kept when no cell is NaN. *)
Definition complete_row (c h l v : option Q) : option Candle :=
  match c, h, l, v with
  | Some c, Some h, Some l, Some v => Some (mkCandle c h l v)
  | _, _, _, _ => None
  end.

(** [pd.DataFrame({...}).dropna()] on four columns of one length. *)
Fixpoint dropna (cs hs ls vs : list (option Q)) : DataFrame :=
  match cs, hs, ls, vs with
  | c :: cs', h :: hs', l :: ls', v :: vs' =>
      match complete_row c h l v with
      | Some k => k :: dropna cs' hs' ls' vs'
      | None => dropna cs' hs' ls' vs'
      end
  | _, _, _, _ => []
  end.

(** [pd.DataFrame({'close': .., 'high': .., 'low': .., 'volume': ..})
    .dropna()]: arrays of different lengths raise [ValueError]. *)
Definition build_frame (close_ high_ low_ volume_ : json) : result fetched :=
  match column close_, column high_, column low_, column volume_ with
  | Some cs, Some hs, Some ls, Some vs =>
      if (length cs =? length hs)%nat && (length hs =? length ls)%nat
         && (length ls =? length vs)%nat
      then Ok (Frame (dropna cs hs ls vs))
      else Raise "All arrays must be of the same length"
  | _, _, _, _ => Ok Unmodelled
  end.

(** Lines 33 to 47: from the decoded response to the frame. *)
Definition parse_chart (data : json) : result fetched :=
  absent ← chart_not_in data;
  if (absent : bool) then Ok Absent
  else
    chart ← subscript data "chart";
    results ← subscript chart "result";
    if negb (truthy results) then Ok Absent
    else
      result_ ← subscript0 results;
      timestamps ← subscript result_ "timestamp";
      indicators ← subscript result_ "indicators";
      quotes ← subscript indicators "quote";
      quote ← subscript0 quotes;
      close_ ← subscript quote "close";
      high_ ← subscript quote "high";
      low_ ← subscript quote "low";
      volume_ ← subscript quote "volume";
      build_frame close_ high_ low_ volume_.

Section Fetch.

Context {World : Type}.

(** [requests.get(url, ...)], [raise_for_status()] and [r.json()]: the
    decoded body, or the exception of a failed transport, a status
    that is not 2xx, or a body that is not JSON. *)
Variable requests_get_json : string -> World -> result json * World.

(** [fetch_yahoo_data]: any exception ends in [None]. *)
Definition fetch_yahoo_data (symbol : string) (w : World) : fetched * World :=
  let url := ("https://query1.finance.yahoo.com/v8/finance/chart/" ++ symbol)%string in
  let '(r, w') := requests_get_json url w in
  match r ≫= parse_chart with
  | Ok f => (f, w')
  | Raise _ => (Absent, w')
  end.

End Fetch.

End Provider.

(** The body of a response that has what [fetch_yahoo_data] reads. *)
Definition chart_body (timestamps close_ high_ low_ volume_ : json) : json :=
  JObj {[ "chart" :=
    JObj {[ "result" :=
      JArr [ JObj {[ "timestamp" := timestamps;
                     "indicators" :=
                       JObj {[ "quote" :=
                         JArr [ JObj {[ "close" := close_; "high" := high_;
                                        "low" := low_; "volume" := volume_ ]} ] ]} ]} ] ]} ]}.

(** ** Configuration: [TICKERS] and [DISCORD_WEBHOOK] from the environment *)

Module Config.

(** [s.split(',')]. *)
Fixpoint split_comma (s : string) : list string :=
  match s with
  | EmptyString => [EmptyString]
  | String c s' =>
      if Ascii.eqb c "," then EmptyString :: split_comma s'
      else match split_comma s' with
           | [] => [String c EmptyString]
           | piece :: pieces => String c piece :: pieces
           end
  end.

(** [os.getenv(name, default)], the variable being unset ([None]) or
    set to a text. *)
Definition getenv (value : option string) (dflt : string) : string :=
  match value with
  | Some v => v
  | None => dflt
  end.

(** [TICKERS = os.getenv('TICKERS', 'TSLA,AMD,GME,NVDA,IONQ').split(',')]. *)
Definition TICKERS (env : option string) : list string :=
  split_comma (getenv env "TSLA,AMD,GME,NVDA,IONQ").

(** [DISCORD_WEBHOOK = os.getenv('DISCORD_WEBHOOK', '')]. *)
Definition DISCORD_WEBHOOK (env : option string) : string := getenv env "".

End Config.

(** A text that is empty or starts with a character [strip] keeps. *)
Definition starts_clean (s : string) : Prop :=
  match s with
  | EmptyString => True
  | String c _ => is_space c = false
  end.

(** ** A world that keeps a log of the calls made to it *)

Inductive Call : Type :=
  | CallFetch (symbol : string)
  | CallNow
  | CallPost (url sym : string) (price : pyval).

Definition is_fetch (c : Call) : bool :=
  match c with
  | CallFetch _ => true
  | _ => false
  end.

Definition is_post (c : Call) : bool :=
  match c with
  | CallPost _ _ _ => true
  | _ => false
  end.

Section LogWorld.

(** What the provider answers and what the clock shows may depend on
    everything that happened before. *)
Variable respond : string -> list Call -> option DataFrame.
Variable clock : list Call -> string.

Definition log_fetch (symbol : string) (log : list Call) : option DataFrame * list Call :=
  (respond symbol log, log ++ [CallFetch symbol]).

Definition log_now (log : list Call) : string * list Call :=
  (clock log, log ++ [CallNow]).

Definition log_post (url sym : string) (price : pyval) (log : list Call) : list Call :=
  log ++ [CallPost url sym price].

End LogWorld.

(** The calls a scan's events stand for: a record is a fetch,
    followed by a reading of the clock when it went through the
    engine; an alert is a post when a webhook is set. *)
Definition calls_of (webhook : string) (e : Event) : list Call :=
  match e with
  | EvRecord ticker d =>
      CallFetch ticker :: match d !! "timestamp" with Some _ => [CallNow] | None => [] end
  | EvAlert sym price =>
      if String.eqb webhook "" then []
      else match price with
           | PyStr _ => []
           | _ => [CallPost webhook sym price]
           end
  | EvPublish _ => []
  end.

(** What the loop leaves in a trace: records the loop can store, and
    alerts with a number for a price. *)
Definition loop_event (e : Event) : Prop :=
  match e with
  | EvRecord _ d => recorded_ok d
  | EvAlert _ p => exists q, p = PyFloat q
  | EvPublish _ => False
  end.

Definition record_key (e : Event) : option string :=
  match e with
  | EvRecord ticker _ => Some ticker
  | _ => None
  end.

Definition post_of (webhook : string) (e : Event) : option Call :=
  match e with
  | EvAlert sym price => Some (CallPost webhook sym price)
  | _ => None
  end.

Section Replay.

Context {World : Type}.
Variable fetch_yahoo_data : string -> World -> option DataFrame * World.
Variable now_isoformat : World -> string * World.
Variable requests_post : string -> string -> pyval -> World -> World.
Variable DISCORD_WEBHOOK : string.

(** What an event of a scan does to the world: a record has fetched,
    and read the clock when it carries a timestamp; an alert has gone
    through [send_discord_alert]. *)
Definition replay_event (w : World) (e : Event) : World :=
  match e with
  | EvRecord ticker d =>
      let w1 := (fetch_yahoo_data ticker w).2 in
      match d !! "timestamp" with
      | Some _ => (now_isoformat w1).2
      | None => w1
      end
  | EvAlert sym price => send_discord_alert requests_post DISCORD_WEBHOOK sym price w
  | EvPublish _ => w
  end.

Definition replay (evs : list Event) (w : World) : World :=
  fold_left replay_event evs w.

End Replay.

Section Turn.

Context {World : Type}.
Variable sqrtQ : Q -> Q.
Variable fetch_yahoo_data : string -> World -> option DataFrame * World.
Variable now_isoformat : World -> string * World.

(** What one turn of the loop assigns to [temp_data[ticker]] (lines
    125 to 137), from the world as the turn finds it: the no-data
    record, or the dictionary [calculate_squeeze] returns for the frame
    fetched for this ticker, with its timestamp. *)
Definition turn_record (ticker : string) (w : World) : Details :=
  match fetch_yahoo_data ticker w with
  | (None, _) => no_data
  | (Some df, w1) =>
      if (length df <? 50)%nat then no_data
      else <["timestamp" := PyStr (now_isoformat w1).1]>
             (calculate_squeeze sqrtQ df 20 2 (3 # 2) (3 # 2)).2
  end.

End Turn.

(** The events of one turn of the loop: the record of the ticker and,
    at once, its alert when the record calls for one. *)
Definition turn_events (r : string * Details) : list Event :=
  EvRecord r.1 r.2 :: option_list (alert_for (EvRecord r.1 r.2)).

(** The record a trace holds last for a key. *)
Fixpoint last_record (k : string) (evs : list Event) : option Details :=
  match evs with
  | [] => None
  | e :: rest =>
      match last_record k rest with
      | Some d => Some d
      | None =>
          match e with
          | EvRecord k' d => if decide (k' = k) then Some d else None
          | _ => None
          end
      end
  end.

(** The value an exponential average has reached after [xs], from
    [prev]. *)
Definition ewm_state (a prev : Q) (xs : list Q) : Q :=
  fold_left (fun y x => ((1 - a) * y + a * x)%Q) xs prev.

(** ** Lemmas on the series operations *)

Lemma Qltb_lt (x y : Q) : Qltb x y = true <-> (x < y)%Q.
Proof.
  unfold Qltb. rewrite Qlt_alt.
  destruct (x ?= y)%Q; split; congruence.
Qed.

Lemma last_zip_with_Some {A B C : Type} (f : A -> B -> C) (a : list A) (b : list B) x y :
  length a = length b ->
  last a = Some x -> last b = Some y ->
  last (zip_with f a b) = Some (f x y).
Proof.
  intros Hlen Ha Hb.
  apply last_Some in Ha as [a' ->]. apply last_Some in Hb as [b' ->].
  rewrite !length_app in Hlen. simpl in Hlen.
  rewrite zip_with_app by lia. simpl. apply last_snoc.
Qed.

Lemma last_fmap_Some {A B : Type} (f : A -> B) (a : list A) x :
  last a = Some x -> last (f <$> a) = Some (f x).
Proof. intros H. rewrite fmap_last, H. reflexivity. Qed.

Lemma last_dense (l : list Q) : l ≠ [] -> last (dense l) = Some (last l).
Proof.
  intros H. unfold dense. rewrite fmap_last.
  destruct (last l) eqn:E; [reflexivity|].
  apply last_None in E. contradiction.
Qed.

Lemma length_ewm_from a p xs : length (ewm_from a p xs) = length xs.
Proof. revert p. induction xs as [|x xs IH]; intros p; simpl; [reflexivity|]. by rewrite IH. Qed.

Lemma length_ewm_list span xs : length (ewm_list span xs) = length xs.
Proof. destruct xs; simpl; [reflexivity|]. by rewrite length_ewm_from. Qed.

Lemma length_rolling_list n agg xs : length (rolling_list n agg xs) = length xs.
Proof. unfold rolling_list. by rewrite length_fmap, length_seq. Qed.

Lemma last_rolling_list n agg xs :
  (1 <= length xs)%nat -> (n <= length xs)%nat ->
  last (rolling_list n agg xs) = Some (agg (window n (length xs - 1) xs)).
Proof.
  intros H1 Hn. unfold rolling_list.
  destruct (length xs) as [|m] eqn:E; [lia|].
  replace (S m - 1)%nat with m by lia.
  rewrite seq_S, fmap_app. simpl. rewrite last_snoc.
  destruct (m + 1 <? n)%nat eqn:Hlt; [|reflexivity].
  apply Nat.ltb_lt in Hlt. lia.
Qed.

Lemma ewm_mean_Ok span xs : 1 <= span -> ewm_mean span xs = Ok (ewm_list span xs).
Proof. intros H. unfold ewm_mean. destruct (span <? 1) eqn:E; [lia|reflexivity]. Qed.

Lemma rolling_Ok L agg xs : 0 <= L -> rolling L agg xs = Ok (rolling_list (Z.to_nat L) agg xs).
Proof. intros H. unfold rolling. destruct (L <? 0) eqn:E; [lia|reflexivity]. Qed.

Lemma iloc_last_Ok {A : Type} (s : list A) x : last s = Some x -> iloc_last s = Ok x.
Proof. intros H. unfold iloc_last. by rewrite H. Qed.

Lemma nonempty_length {A : Type} (l : list A) : (1 <= length l)%nat -> l ≠ [].
Proof. destruct l; simpl; [lia|discriminate]. Qed.

Ltac series_length :=
  unfold sadd, ssub, sgt, slt, sand, smul, dense;
  rewrite ?length_zip_with, ?length_fmap, ?length_ewm_list,
    ?length_rolling_list, ?length_zip_with, ?length_fmap, ?length_ewm_list;
  lia.

(** The engine on a frame long enough, for a lookback of at least one
    row: every step succeeds and the result is built from the last row. *)
Lemma calculate_squeeze_try_row sqrtQ (df : DataFrame) (L : Z) (bb kc vol : Q) c :
  1 <= L -> L + 26 <= Z.of_nat (length df) -> last df = Some c ->
  calculate_squeeze_try sqrtQ df L bb kc vol =
    Ok (in_squeeze_row sqrtQ df L bb kc && high_volume_row df L vol && macd_row df,
        signal_details (close c) (int_of_float (volume c))
          (in_squeeze_row sqrtQ df L bb kc) (high_volume_row df L vol) (macd_row df)
          (in_squeeze_row sqrtQ df L bb kc && high_volume_row df L vol && macd_row df)).
Proof.
  intros HL Hlen Hc.
  assert (Hn : (1 <= length df)%nat) by lia.
  assert (HLn : (Z.to_nat L <= length df)%nat) by lia.
  unfold calculate_squeeze_try.
  destruct (Z.of_nat (length df) <? L + 26) eqn:Hg; [lia|].
  rewrite (ewm_mean_Ok L) by lia. cbn [mbind result_bind bind].
  rewrite !rolling_Ok by lia. cbn [mbind result_bind bind].
  rewrite (ewm_mean_Ok 12), (ewm_mean_Ok 26) by lia. cbn [mbind result_bind bind].
  rewrite (ewm_mean_Ok 9) by lia. cbn [mbind result_bind bind].
  set (closes := close <$> df). set (vols := volume <$> df).
  set (macd := zip_with Qminus (ewm_list 12 closes) (ewm_list 26 closes)).
  assert (Hclen : length closes = length df) by (subst closes; apply length_fmap).
  assert (Hvlen : length vols = length df) by (subst vols; apply length_fmap).
  assert (Hslen : length ((fun c0 => (high c0 - low c0)%Q) <$> df) = length df)
    by apply length_fmap.
  assert (Hmlen : length macd = length df)
    by (subst macd; rewrite length_zip_with, !length_ewm_list; lia).
  assert (Hema : last (dense (ewm_list L closes)) = Some (last (ewm_list L closes))).
  { apply last_dense, nonempty_length. rewrite length_ewm_list. lia. }
  assert (Hatr : last (rolling_list (Z.to_nat L) mean ((fun c0 => (high c0 - low c0)%Q) <$> df))
                 = Some (mean (last_window L (spread <$> df)))).
  { rewrite last_rolling_list by lia. reflexivity. }
  assert (Hsma : last (rolling_list (Z.to_nat L) mean closes)
                 = Some (mean (last_window L closes))).
  { rewrite last_rolling_list by lia. reflexivity. }
  assert (Hsd : last (rolling_list (Z.to_nat L) (std sqrtQ) closes)
                = Some (std sqrtQ (last_window L closes))).
  { rewrite last_rolling_list by lia. reflexivity. }
  assert (Hva : last (rolling_list (Z.to_nat L) mean vols)
                = Some (mean (last_window L vols))).
  { rewrite last_rolling_list by lia. reflexivity. }
  assert (Hvol : last (dense vols) = Some (last vols)).
  { apply last_dense, nonempty_length. lia. }
  assert (Hmacd : last (dense macd) = Some (last macd)).
  { apply last_dense, nonempty_length. lia. }
  assert (Hsig : last (dense (ewm_list 9 macd)) = Some (last (ewm_list 9 macd))).
  { apply last_dense, nonempty_length. rewrite length_ewm_list. lia. }
  assert (Hsq : last (sand
      (sgt (ssub (rolling_list (Z.to_nat L) mean closes)
                 (smul bb (rolling_list (Z.to_nat L) (std sqrtQ) closes)))
           (ssub (dense (ewm_list L closes))
                 (smul kc (rolling_list (Z.to_nat L) mean
                             ((fun c0 => (high c0 - low c0)%Q) <$> df)))))
      (slt (sadd (rolling_list (Z.to_nat L) mean closes)
                 (smul bb (rolling_list (Z.to_nat L) (std sqrtQ) closes)))
           (sadd (dense (ewm_list L closes))
                 (smul kc (rolling_list (Z.to_nat L) mean
                             ((fun c0 => (high c0 - low c0)%Q) <$> df))))))
    = Some (in_squeeze_row sqrtQ df L bb kc)).
  { unfold in_squeeze_row, squeeze_test. fold closes.
    apply last_zip_with_Some; [series_length| |].
    - apply last_zip_with_Some; [series_length| |];
        (apply last_zip_with_Some; [series_length|eassumption|]);
        apply last_fmap_Some; assumption.
    - unfold slt. apply last_zip_with_Some; [series_length| |];
        (apply last_zip_with_Some; [series_length|eassumption|]);
        apply last_fmap_Some; assumption. }
  assert (Hhv : last (sgt (dense vols) (smul vol (rolling_list (Z.to_nat L) mean vols)))
                = Some (high_volume_row df L vol)).
  { unfold high_volume_row. fold vols.
    apply last_zip_with_Some; [series_length|assumption|].
    apply last_fmap_Some; assumption. }
  assert (Hmb : last (sgt (dense macd) (dense (ewm_list 9 macd))) = Some (macd_row df)).
  { unfold macd_row. fold closes. fold macd.
    apply last_zip_with_Some; [series_length|assumption|assumption]. }
  match goal with
  | |- context [iloc_last (sand (sand ?a ?b) ?m)] =>
      assert (Hall : last (sand (sand a b) m)
                     = Some (in_squeeze_row sqrtQ df L bb kc
                             && high_volume_row df L vol && macd_row df))
  end.
  { apply last_zip_with_Some; [series_length| |assumption].
    apply last_zip_with_Some; [series_length|assumption|assumption]. }
  rewrite !(iloc_last_Ok _ _ Hall). cbn [mbind result_bind bind].
  rewrite (iloc_last_Ok closes (close c)) by (apply last_fmap_Some; assumption).
  cbn [mbind result_bind bind].
  rewrite (iloc_last_Ok vols (volume c)) by (apply last_fmap_Some; assumption).
  cbn [mbind result_bind bind].
  rewrite !(iloc_last_Ok _ _ Hsq). cbn [mbind result_bind bind].
  rewrite !(iloc_last_Ok _ _ Hhv). cbn [mbind result_bind bind].
  rewrite !(iloc_last_Ok _ _ Hmb). cbn [mbind result_bind bind].
  reflexivity.
Qed.

Lemma calculate_squeeze_row sqrtQ (df : DataFrame) (L : Z) (bb kc vol : Q) c :
  1 <= L -> L + 26 <= Z.of_nat (length df) -> last df = Some c ->
  calculate_squeeze sqrtQ df L bb kc vol =
    (in_squeeze_row sqrtQ df L bb kc && high_volume_row df L vol && macd_row df,
     signal_details (close c) (int_of_float (volume c))
       (in_squeeze_row sqrtQ df L bb kc) (high_volume_row df L vol) (macd_row df)
       (in_squeeze_row sqrtQ df L bb kc && high_volume_row df L vol && macd_row df)).
Proof.
  intros HL Hlen Hc. unfold calculate_squeeze.
  by rewrite (calculate_squeeze_try_row sqrtQ df L bb kc vol c HL Hlen Hc).
Qed.

Lemma last_is_Some {A : Type} (l : list A) : (1 <= length l)%nat -> exists c, last l = Some c.
Proof.
  intros H. destruct (last l) eqn:E; [eauto|].
  apply last_None in E. subst. simpl in H. lia.
Qed.

Lemma calculate_squeeze_short sqrtQ (df : DataFrame) (L : Z) (bb kc vol : Q) :
  Z.of_nat (length df) < L + 26 ->
  calculate_squeeze sqrtQ df L bb kc vol = (false, ∅).
Proof.
  intros H. unfold calculate_squeeze, calculate_squeeze_try.
  destruct (Z.of_nat (length df) <? L + 26) eqn:E; [reflexivity|lia].
Qed.

Lemma calculate_squeeze_bad_span sqrtQ (df : DataFrame) (L : Z) (bb kc vol : Q) :
  L + 26 <= Z.of_nat (length df) -> L < 1 ->
  calculate_squeeze sqrtQ df L bb kc vol =
    (false, error_details "span must satisfy: span >= 1").
Proof.
  intros H HL. unfold calculate_squeeze, calculate_squeeze_try, ewm_mean.
  destruct (Z.of_nat (length df) <? L + 26) eqn:E; [lia|].
  destruct (L <? 1) eqn:E1; [reflexivity|lia].
Qed.

Lemma signal_details_in_squeeze p v sq hv mb sig :
  signal_details p v sq hv mb sig !! "in_squeeze" = Some (PyBool sq).
Proof. reflexivity. Qed.

Lemma error_details_in_squeeze msg : error_details msg !! "in_squeeze" = None.
Proof. reflexivity. Qed.

(** The [in_squeeze] field is there exactly on the engine's full
    path, and then it is the squeeze test on the last row. *)
Lemma in_squeeze_field sqrtQ (df : DataFrame) (L : Z) (bb kc vol : Q) b :
  (calculate_squeeze sqrtQ df L bb kc vol).2 !! "in_squeeze" = Some (PyBool b) ->
  1 <= L /\ L + 26 <= Z.of_nat (length df) /\ in_squeeze_row sqrtQ df L bb kc = b.
Proof.
  intros H.
  destruct (Z_lt_le_dec (Z.of_nat (length df)) (L + 26)) as [Hs|Hl].
  { rewrite calculate_squeeze_short in H by assumption. simpl in H.
    rewrite lookup_empty in H. discriminate. }
  destruct (Z_lt_le_dec L 1) as [HL|HL].
  { rewrite calculate_squeeze_bad_span in H by assumption. simpl in H.
    rewrite error_details_in_squeeze in H. discriminate. }
  destruct (last_is_Some df) as [c Hc]; [lia|].
  rewrite (calculate_squeeze_row sqrtQ df L bb kc vol c) in H by assumption.
  simpl in H. rewrite signal_details_in_squeeze in H.
  repeat split; try assumption. congruence.
Qed.

Lemma in_squeeze_field_row sqrtQ (df : DataFrame) (L : Z) (bb kc vol : Q) :
  1 <= L -> L + 26 <= Z.of_nat (length df) ->
  (calculate_squeeze sqrtQ df L bb kc vol).2 !! "in_squeeze"
  = Some (PyBool (in_squeeze_row sqrtQ df L bb kc)).
Proof.
  intros HL Hlen. destruct (last_is_Some df) as [c Hc]; [lia|].
  rewrite (calculate_squeeze_row sqrtQ df L bb kc vol c) by assumption.
  apply signal_details_in_squeeze.
Qed.

(** *** Sums and means of windows *)

Lemma qlen_cons x xs : (qlen (x :: xs) == 1 + qlen xs)%Q.
Proof.
  unfold qlen. simpl length. rewrite Nat2Z.inj_succ.
  unfold Z.succ. rewrite inject_Z_plus. simpl. ring.
Qed.

Lemma qlen_nonneg xs : (0 <= qlen xs)%Q.
Proof.
  unfold qlen. change 0%Q with (inject_Z 0). rewrite <- Zle_Qle. lia.
Qed.

Lemma qlen_pos xs : xs ≠ [] -> (0 < qlen xs)%Q.
Proof.
  destruct xs as [|x xs]; [congruence|]. intros _.
  rewrite qlen_cons. pose proof (qlen_nonneg xs). lra.
Qed.

Lemma qsum_zero xs : Forall (fun x => (x == 0)%Q) xs -> (qsum xs == 0)%Q.
Proof.
  induction 1 as [|x xs Hx _ IH]; simpl; [reflexivity|].
  rewrite Hx, IH. ring.
Qed.

Lemma qsum_nonneg xs : Forall (fun x => (0 <= x)%Q) xs -> (0 <= qsum xs)%Q.
Proof.
  induction 1 as [|x xs Hx _ IH]; simpl; [apply Qle_refl|]. lra.
Qed.

Lemma qsum_const c xs : Forall (fun x => x = c) xs -> (qsum xs == qlen xs * c)%Q.
Proof.
  induction 1 as [|x xs Hx _ IH].
  - simpl. unfold qlen. simpl. ring.
  - simpl qsum. rewrite qlen_cons, IH, Hx. ring.
Qed.

Lemma mean_zero xs a :
  Forall (fun x => (x == 0)%Q) xs -> mean xs = Some a -> (a == 0)%Q.
Proof.
  intros HF H. destruct xs as [|x xs]; [discriminate|].
  injection H as <-. rewrite (qsum_zero _ HF).
  unfold Qdiv. ring.
Qed.

Lemma mean_nonneg xs a :
  Forall (fun x => (0 <= x)%Q) xs -> mean xs = Some a -> (0 <= a)%Q.
Proof.
  intros HF H. destruct xs as [|x xs]; [discriminate|].
  injection H as <-.
  apply Qle_shift_div_l; [apply qlen_pos; discriminate|].
  rewrite Qmult_0_l. exact (qsum_nonneg (x :: xs) HF).
Qed.

Lemma mean_const c xs m :
  Forall (fun x => x = c) xs -> mean xs = Some m -> (m == c)%Q.
Proof.
  intros HF H. destruct xs as [|x xs]; [discriminate|].
  injection H as <-. rewrite (qsum_const c _ HF).
  field. pose proof (qlen_pos (x :: xs)). 
  intros E. rewrite E in H. specialize (H ltac:(discriminate)). lra.
Qed.

Lemma std_const sqrtQ c xs s :
  (forall x, (x == 0)%Q -> (sqrtQ x == 0)%Q) ->
  Forall (fun x => x = c) xs -> std sqrtQ xs = Some s -> (s == 0)%Q.
Proof.
  intros Hs HF H. unfold std in H.
  destruct (mean xs) as [m|] eqn:Hm; [|discriminate].
  destruct (length xs <=? 1)%nat; [discriminate|].
  injection H as <-. apply Hs.
  pose proof (mean_const c xs m HF Hm) as Hmc.
  rewrite qsum_zero; [unfold Qdiv; ring|].
  apply Forall_fmap. eapply Forall_impl; [exact HF|].
  intros x ->. simpl. rewrite Hmc. ring.
Qed.

Lemma std_nonneg sqrtQ xs s :
  (forall x, (0 <= sqrtQ x)%Q) -> std sqrtQ xs = Some s -> (0 <= s)%Q.
Proof.
  intros Hs H. unfold std in H.
  destruct (mean xs); [|discriminate].
  destruct (length xs <=? 1)%nat; [discriminate|].
  injection H as <-. apply Hs.
Qed.

Lemma Forall_window {P : Q -> Prop} n i xs : Forall P xs -> Forall P (window n i xs).
Proof. intros H. unfold window. apply Forall_take, Forall_drop, H. Qed.

(** *** Momentum after a flat stretch

    On closes constant at [c] and then one close [c'] above, the
    averages sit at [c] until the last row, MACD is zero until then
    and positive there, and its signal line has only caught a fifth of
    it. *)

Lemma ewm_from_app a p xs ys :
  ewm_from a p (xs ++ ys) = ewm_from a p xs ++ ewm_from a (ewm_state a p xs) ys.
Proof.
  revert p. induction xs as [|x xs IH]; intros p; simpl; [reflexivity|].
  by rewrite IH.
Qed.

Lemma ewm_state_flat a c p xs :
  (p == c)%Q -> Forall (fun x => (x == c)%Q) xs -> (ewm_state a p xs == c)%Q.
Proof.
  intros Hp HF. revert p Hp. induction HF as [|x xs Hx _ IH]; intros p Hp; simpl.
  - exact Hp.
  - apply IH. rewrite Hp, Hx. ring.
Qed.

Lemma ewm_from_flat a c p xs :
  (p == c)%Q -> Forall (fun x => (x == c)%Q) xs ->
  Forall (fun x => (x == c)%Q) (ewm_from a p xs).
Proof.
  intros Hp HF. revert p Hp. induction HF as [|x xs Hx _ IH]; intros p Hp; simpl.
  - constructor.
  - assert (H : ((1 - a) * p + a * x == c)%Q) by (rewrite Hp, Hx; ring).
    constructor; [exact H|]. apply IH, H.
Qed.

Lemma zip_minus_flat c (xs ys : list Q) :
  Forall (fun x => (x == c)%Q) xs -> Forall (fun x => (x == c)%Q) ys ->
  Forall (fun x => (x == 0)%Q) (zip_with Qminus xs ys).
Proof.
  intros Hx. revert ys. induction Hx as [|x xs Hx _ IH]; intros ys Hy; simpl.
  - constructor.
  - destruct Hy as [|y ys Hy Hys]; constructor.
    + rewrite Hx, Hy. ring.
    + apply IH, Hys.
Qed.

Lemma ewm_list_uptick span c c' n :
  exists s,
    (s == c)%Q
    /\ ewm_list span (replicate (S n) c ++ [c'])
       = (c :: ewm_from (alpha span) c (replicate n c))
           ++ [((1 - alpha span) * s + alpha span * c')%Q].
Proof.
  exists (ewm_state (alpha span) c (replicate n c)). split.
  - apply ewm_state_flat; [reflexivity|]. apply Forall_replicate. reflexivity.
  - simpl. rewrite ewm_from_app. reflexivity.
Qed.

Lemma macd_row_uptick (k k' : Candle) n :
  (close k < close k')%Q ->
  macd_row (replicate (S n) k ++ [k']) = true.
Proof.
  intros Hup. unfold macd_row.
  rewrite fmap_app, fmap_replicate. cbn [fmap list_fmap].
  set (c := close k) in *. set (c' := close k') in *.
  destruct (ewm_list_uptick 12 c c' n) as (s12 & Hs12 & ->).
  destruct (ewm_list_uptick 26 c c' n) as (s26 & Hs26 & ->).
  assert (Hflat : forall span,
             Forall (fun x => (x == c)%Q) (c :: ewm_from (alpha span) c (replicate n c))).
  { intros span. constructor; [reflexivity|].
    apply ewm_from_flat; [reflexivity|]. apply Forall_replicate. reflexivity. }
  rewrite zip_with_app by (simpl; rewrite !length_ewm_from; reflexivity).
  pose proof (zip_minus_flat c _ _ (Hflat 12) (Hflat 26)) as Hzero.
  cbn [zip_with] in Hzero |- *.
  inversion Hzero as [|m0 M Hm0 HM]; subst.
  rewrite last_snoc.
  rewrite <- app_comm_cons. unfold ewm_list.
  rewrite ewm_from_app. cbn [ewm_from].
  rewrite app_comm_cons, last_snoc.
  pose proof (ewm_state_flat (alpha 9) 0 (c - c)%Q _ Hm0 HM) as Hs9.
  cbn [fgt]. apply Qltb_lt.
  assert (H12 : (alpha 12 == 2 # 13)%Q) by reflexivity.
  assert (H26 : (alpha 26 == 2 # 27)%Q) by reflexivity.
  assert (H9 : (alpha 9 == 2 # 10)%Q) by reflexivity.
  rewrite Hs9, Hs12, Hs26, H12, H26, H9. lra.
Qed.

(** *** The squeeze test on one row *)

Lemma squeeze_test_true ema atr sma sd bb kc :
  squeeze_test ema atr sma sd bb kc = true ->
  exists e a m s,
    ema = Some e /\ atr = Some a /\ sma = Some m /\ sd = Some s
    /\ (e - kc * a < m - bb * s)%Q /\ (m + bb * s < e + kc * a)%Q.
Proof.
  unfold squeeze_test. intros H. apply andb_true_iff in H as [H1 H2].
  destruct ema as [e|], atr as [a|], sma as [m|], sd as [s|];
    simpl in H1, H2; try discriminate.
  apply Qltb_lt in H1, H2. exists e, a, m, s. auto 10.
Qed.

Lemma squeeze_test_intro e a m s bb kc :
  (e - kc * a < m - bb * s)%Q -> (m + bb * s < e + kc * a)%Q ->
  squeeze_test (Some e) (Some a) (Some m) (Some s) bb kc = true.
Proof.
  intros H1 H2. unfold squeeze_test. simpl.
  apply andb_true_iff. split; apply Qltb_lt; assumption.
Qed.

(** Narrowing the Bollinger multiplier keeps a squeeze. *)
Lemma squeeze_test_bb ema atr sma sd bb bb' kc :
  (forall s, sd = Some s -> (0 <= s)%Q) -> (bb <= bb')%Q ->
  squeeze_test ema atr sma sd bb' kc = true ->
  squeeze_test ema atr sma sd bb kc = true.
Proof.
  intros Hsd Hbb H.
  apply squeeze_test_true in H as (e & a & m & s & -> & -> & -> & -> & H1 & H2).
  assert (Hs : (0 <= s)%Q) by (apply Hsd; reflexivity).
  assert (Hp : (bb * s <= bb' * s)%Q) by (apply Qmult_le_compat_r; assumption).
  apply squeeze_test_intro; lra.
Qed.

(** Widening the Keltner multiplier keeps a squeeze. *)
Lemma squeeze_test_kc ema atr sma sd bb kc kc' :
  (forall a, atr = Some a -> (0 <= a)%Q) -> (kc <= kc')%Q ->
  squeeze_test ema atr sma sd bb kc = true ->
  squeeze_test ema atr sma sd bb kc' = true.
Proof.
  intros Hatr Hkc H.
  apply squeeze_test_true in H as (e & a & m & s & -> & -> & -> & -> & H1 & H2).
  assert (Ha : (0 <= a)%Q) by (apply Hatr; reflexivity).
  assert (Hp : (kc * a <= kc' * a)%Q) by (apply Qmult_le_compat_r; assumption).
  apply squeeze_test_intro; lra.
Qed.

(** Bands collapsed to a point are not strictly inside one another. *)
Lemma squeeze_test_collapsed ema atr sma sd bb kc :
  (forall a, atr = Some a -> (a == 0)%Q) ->
  (forall s, sd = Some s -> (s == 0)%Q) ->
  squeeze_test ema atr sma sd bb kc = false.
Proof.
  intros Hatr Hsd.
  destruct (squeeze_test ema atr sma sd bb kc) eqn:H; [|reflexivity].
  apply squeeze_test_true in H as (e & a & m & s & -> & -> & -> & -> & H1 & H2).
  pose proof (Hatr a eq_refl) as Ha. pose proof (Hsd s eq_refl) as Hs.
  rewrite Ha, Hs in H1, H2. lra.
Qed.

(** ** The indicator engine *)

(** C1. For a lookback [L] of at least one row and every frame of at
    least [L + 26] rows, [calculate_squeeze] returns a Signal variant
    whose [signal] field, and the flag returned beside it, is the
    conjunction of the [in_squeeze], [high_volume] and [macd_bullish]
    fields of the same dictionary; so [signal] is true only when all
    three are. *)
Theorem fusion_consistency sqrtQ (df : DataFrame) (L : Z) (bb kc vol : Q) :
  1 <= L -> L + 26 <= Z.of_nat (length df) ->
  exists price v sq hv mb,
    calculate_squeeze sqrtQ df L bb kc vol
    = (sq && hv && mb, signal_details price v sq hv mb (sq && hv && mb))
    /\ (sq && hv && mb = true -> sq = true /\ hv = true /\ mb = true).
Proof.
  intros HL Hlen. destruct (last_is_Some df) as [c Hc]; [lia|].
  exists (close c), (int_of_float (volume c)), (in_squeeze_row sqrtQ df L bb kc),
    (high_volume_row df L vol), (macd_row df).
  split; [by apply calculate_squeeze_row|].
  intros H. apply andb_true_iff in H as [H ?]. apply andb_true_iff in H as [? ?].
  auto.
Qed.

Lemma fusion_consistency_witness :
  1 <= 20 /\ 20 + 26 <= Z.of_nat (length df_signal) /\
  exists price v sq hv mb,
    calculate_squeeze sqrt6 df_signal 20 2 (3 # 2) (3 # 2)
    = (sq && hv && mb, signal_details price v sq hv mb (sq && hv && mb))
    /\ (sq && hv && mb = true -> sq = true /\ hv = true /\ mb = true).
Proof.
  split; [lia|]. split; [vm_compute; discriminate|].
  apply (fusion_consistency sqrt6 df_signal 20 2 (3 # 2) (3 # 2)).
  - lia.
  - vm_compute; discriminate.
Defined.

(** C2, as the code has it. For every frame of fewer than [L + 26]
    rows, [calculate_squeeze] returns [False] with the empty
    dictionary: not a Signal variant, and no error flag or message
    either. *)
Theorem short_frame_empty sqrtQ (df : DataFrame) (L : Z) (bb kc vol : Q) :
  Z.of_nat (length df) < L + 26 ->
  calculate_squeeze sqrtQ df L bb kc vol = (false, ∅)
  /\ (forall price v sq hv mb sig,
        (calculate_squeeze sqrtQ df L bb kc vol).2 ≠ signal_details price v sq hv mb sig).
Proof.
  intros H. rewrite calculate_squeeze_short by assumption. split; [reflexivity|].
  intros price v sq hv mb sig E. simpl in E.
  apply (f_equal (fun d : Details => d !! "error")) in E.
  rewrite lookup_empty in E. discriminate.
Qed.

Lemma short_frame_empty_witness :
  Z.of_nat (length (replicate 45 (candle 100 0 1000))) < 20 + 26 /\
  calculate_squeeze sqrt6 (replicate 45 (candle 100 0 1000)) 20 2 (3 # 2) (3 # 2) = (false, ∅).
Proof.
  split; [vm_compute; reflexivity|].
  apply (short_frame_empty sqrt6 (replicate 45 (candle 100 0 1000)) 20 2 (3 # 2) (3 # 2)).
  vm_compute; reflexivity.
Defined.

(** C2 as stated fails: on 45 rows with the default lookback the
    result is no Error variant carrying "insufficient data". *)
Lemma short_frame_not_error :
  ~ is_error_variant
      (calculate_squeeze sqrt6 (replicate 45 (candle 100 0 1000)) 20 2 (3 # 2) (3 # 2)).2
      "insufficient data".
Proof. intros [H _]. vm_compute in H. discriminate. Qed.

Lemma sqrt6_nonneg x : (0 <= sqrt6 x)%Q.
Proof.
  unfold sqrt6, Qle. simpl. rewrite Z.mul_1_r. apply Z.sqrt_nonneg.
Qed.

Lemma sqrt6_zero x : (x == 0)%Q -> (sqrt6 x == 0)%Q.
Proof.
  unfold sqrt6, Qeq. simpl. rewrite !Z.mul_1_r. intros ->.
  rewrite Z.mul_0_l, Z.div_0_l by lia. reflexivity.
Qed.

(** C6, as the code has it. With a non-negative square root, on a
    fixed frame: raising the Bollinger multiplier [bb] can only turn
    [in_squeeze] from true to false; raising the Keltner multiplier
    [kc], on a frame whose highs are not below its lows, can only turn
    it from false to true. *)
Theorem squeeze_monotone sqrtQ (df : DataFrame) (L : Z) (bb bb' kc kc' vol : Q) :
  (forall x, (0 <= sqrtQ x)%Q) ->
  ((bb <= bb')%Q ->
   (calculate_squeeze sqrtQ df L bb' kc vol).2 !! "in_squeeze" = Some (PyBool true) ->
   (calculate_squeeze sqrtQ df L bb kc vol).2 !! "in_squeeze" = Some (PyBool true))
  /\
  ((kc <= kc')%Q -> Forall (fun c => (low c <= high c)%Q) df ->
   (calculate_squeeze sqrtQ df L bb kc vol).2 !! "in_squeeze" = Some (PyBool true) ->
   (calculate_squeeze sqrtQ df L bb kc' vol).2 !! "in_squeeze" = Some (PyBool true)).
Proof.
  intros Hnn. split.
  - intros Hbb H. apply in_squeeze_field in H as (HL & Hlen & Hrow).
    rewrite in_squeeze_field_row by assumption. do 2 f_equal.
    revert Hrow. unfold in_squeeze_row. apply squeeze_test_bb; [|assumption].
    intros s Hs. eapply std_nonneg; eassumption.
  - intros Hkc Hdf H. apply in_squeeze_field in H as (HL & Hlen & Hrow).
    rewrite in_squeeze_field_row by assumption. do 2 f_equal.
    revert Hrow. unfold in_squeeze_row. apply squeeze_test_kc; [|assumption].
    intros a Ha. eapply mean_nonneg; [|exact Ha].
    apply Forall_window, Forall_fmap. eapply Forall_impl; [exact Hdf|].
    intros c Hc. unfold spread, compose. cbv beta in *. lra.
Qed.

Lemma squeeze_monotone_witness :
  (forall x, (0 <= sqrt6 x)%Q) /\
  ((1 <= 2)%Q ->
   (calculate_squeeze sqrt6 df_swing 20 2 2 (3 # 2)).2 !! "in_squeeze" = Some (PyBool true) ->
   (calculate_squeeze sqrt6 df_swing 20 1 2 (3 # 2)).2 !! "in_squeeze" = Some (PyBool true)) /\
  (calculate_squeeze sqrt6 df_swing 20 2 2 (3 # 2)).2 !! "in_squeeze" = Some (PyBool true).
Proof.
  split; [exact sqrt6_nonneg|]. split.
  - apply (squeeze_monotone sqrt6 df_swing 20 1 2 2 2 (3 # 2)). exact sqrt6_nonneg.
  - rewrite in_squeeze_field_row; [vm_compute; reflexivity|lia|vm_compute; discriminate].
Defined.

(** C6 as stated fails for the Keltner multiplier: on 46 rows swinging
    between 100 and 101 with a range of 0.6, raising [kc] from 1.5 to 2
    turns [in_squeeze] from false to true. *)
Lemma squeeze_kc_widening_enters :
  (3 # 2 <= 2)%Q
  /\ (calculate_squeeze sqrt6 df_swing 20 2 (3 # 2) (3 # 2)).2 !! "in_squeeze"
     = Some (PyBool false)
  /\ (calculate_squeeze sqrt6 df_swing 20 2 2 (3 # 2)).2 !! "in_squeeze"
     = Some (PyBool true).
Proof.
  split; [vm_compute; discriminate|].
  rewrite !in_squeeze_field_row by (lia || (vm_compute; discriminate)).
  split; vm_compute; reflexivity.
Qed.

(** C8. For a lookback [L] of at least one row, a square root that is
    zero at zero, and exactly [L + 26] candles with one constant close,
    [high = low = close] and one constant volume, [calculate_squeeze]
    returns a Signal variant with [in_squeeze] false. *)
Theorem flat_series_no_squeeze sqrtQ (L : Z) (c v bb kc vol : Q) :
  (forall x, (x == 0)%Q -> (sqrtQ x == 0)%Q) -> 1 <= L ->
  exists price volume_ hv mb,
    calculate_squeeze sqrtQ (replicate (Z.to_nat (L + 26)) (mkCandle c c c v)) L bb kc vol
    = (false, signal_details price volume_ false hv mb false).
Proof.
  intros Hs HL.
  set (df := replicate (Z.to_nat (L + 26)) (mkCandle c c c v)).
  assert (Hlen : length df = Z.to_nat (L + 26)) by apply length_replicate.
  destruct (last_is_Some df) as [k Hk]; [lia|].
  assert (Hrow : in_squeeze_row sqrtQ df L bb kc = false).
  { unfold in_squeeze_row. apply squeeze_test_collapsed.
    - intros a Ha. eapply mean_zero; [|exact Ha].
      apply Forall_window, Forall_fmap, Forall_replicate.
      unfold spread, compose. cbn [close high low]. ring.
    - intros s Hsd. eapply (std_const sqrtQ c); [exact Hs| |exact Hsd].
      apply Forall_window, Forall_fmap, Forall_replicate. reflexivity. }
  exists (close k), (int_of_float (volume k)), (high_volume_row df L vol), (macd_row df).
  rewrite (calculate_squeeze_row sqrtQ df L bb kc vol k) by (assumption || lia).
  rewrite Hrow. reflexivity.
Qed.

Lemma flat_series_no_squeeze_witness :
  (forall x, (x == 0)%Q -> (sqrt6 x == 0)%Q) /\ 1 <= 20 /\
  exists price volume_ hv mb,
    calculate_squeeze sqrt6 (replicate (Z.to_nat (20 + 26)) (mkCandle 100 100 100 1000))
      20 2 (3 # 2) (3 # 2)
    = (false, signal_details price volume_ false hv mb false).
Proof.
  split; [exact sqrt6_zero|]. split; [lia|].
  apply (flat_series_no_squeeze sqrt6 20 100 1000 2 (3 # 2) (3 # 2)).
  - exact sqrt6_zero.
  - lia.
Defined.

(** ** The scan *)

Lemma stamped_lookups ts p v sq hv mb sig :
  let d := <["timestamp" := PyStr ts]> (signal_details p v sq hv mb sig) in
  d !! "error" = Some (PyBool false)
  /\ d !! "signal" = Some (PyBool sig)
  /\ d !! "price" = Some (PyFloat p).
Proof. repeat split. Qed.

Lemma no_data_lookups :
  no_data !! "error" = Some (PyBool true)
  /\ no_data !! "message" = Some (PyStr "No data available")
  /\ no_data !! "signal" = Some (PyBool false).
Proof. repeat split. Qed.

Section ScanFacts.

Context {World : Type}.
Variable sqrtQ : Q -> Q.
Variable fetch_yahoo_data : string -> World -> option DataFrame * World.
Variable now_isoformat : World -> string * World.
Variable requests_post : string -> string -> pyval -> World -> World.
Variable TICKERS : list string.
Variable DISCORD_WEBHOOK : string.

(** The functions of the scan at the parameters of this section. *)
Local Abbreviation loop_body' :=
  (loop_body sqrtQ fetch_yahoo_data now_isoformat requests_post DISCORD_WEBHOOK).
Local Abbreviation scan_loop' :=
  (scan_loop sqrtQ fetch_yahoo_data now_isoformat requests_post DISCORD_WEBHOOK).
Local Abbreviation scan_markets' :=
  (scan_markets sqrtQ fetch_yahoo_data now_isoformat requests_post TICKERS DISCORD_WEBHOOK).
Local Abbreviation step' :=
  (step sqrtQ fetch_yahoo_data now_isoformat requests_post DISCORD_WEBHOOK).

(** A ticker without usable data gets the no-data record. *)
Lemma loop_body_no_data raw temp (sys : System World) :
  (fetch_yahoo_data (upper (strip raw)) (world sys)).1 = None
  \/ (exists d, (fetch_yahoo_data (upper (strip raw)) (world sys)).1 = Some d
                /\ (length d < 50)%nat) ->
  loop_body' raw temp sys
  = Ok (<[upper (strip raw) := no_data]> temp,
        mkSystem (squeeze_data sys)
          (fetch_yahoo_data (upper (strip raw)) (world sys)).2
          (trace sys ++ [EvRecord (upper (strip raw)) no_data])).
Proof.
  intros H. unfold loop_body.
  destruct (fetch_yahoo_data (upper (strip raw)) (world sys)) as [df w1].
  simpl in *. destruct H as [->|(d & -> & Hd)]; [reflexivity|].
  apply Nat.ltb_lt in Hd. rewrite Hd. reflexivity.
Qed.

(** One turn of the loop never raises: it stores one record for the
    ticker, alerts when that record calls for it, and leaves
    [squeeze_data] alone. *)
Lemma loop_body_spec raw temp (sys : System World) :
  exists d w',
    loop_body' raw temp sys
    = Ok (<[upper (strip raw) := d]> temp,
          mkSystem (squeeze_data sys) w'
            (trace sys ++ EvRecord (upper (strip raw)) d
                          :: option_list (alert_for (EvRecord (upper (strip raw)) d))))
    /\ recorded_ok d.
Proof.
  destruct (fetch_yahoo_data (upper (strip raw)) (world sys)) as [df w1] eqn:Hf.
  destruct df as [d|].
  2:{ exists no_data, w1. split; [|by left].
      rewrite loop_body_no_data by (left; by rewrite Hf).
      rewrite Hf. reflexivity. }
  destruct (length d <? 50)%nat eqn:Hlen.
  { exists no_data, w1. split; [|by left].
    rewrite loop_body_no_data.
    - rewrite Hf. reflexivity.
    - right. exists d. rewrite Hf. split; [reflexivity|]. by apply Nat.ltb_lt. }
  apply Nat.ltb_ge in Hlen.
  destruct (last_is_Some d) as [c Hc]; [lia|].
  unfold loop_body. rewrite Hf.
  destruct (length d <? 50)%nat eqn:Hlt; [apply Nat.ltb_lt in Hlt; lia|].
  rewrite (calculate_squeeze_row sqrtQ d 20 2 (3 # 2) (3 # 2) c) by (lia || assumption).
  set (sq := in_squeeze_row sqrtQ d 20 2 (3 # 2)).
  set (hv := high_volume_row d 20 (3 # 2)).
  set (mb := macd_row d).
  destruct (now_isoformat w1) as [ts w2].
  pose proof (stamped_lookups ts (close c) (int_of_float (volume c)) sq hv mb
                (sq && hv && mb)) as (He & Hs & Hp).
  assert (Hok : recorded_ok
            (<["timestamp" := PyStr ts]>
               (signal_details (close c) (int_of_float (volume c)) sq hv mb
                  (sq && hv && mb)))).
  { right. exists ts, (close c), (int_of_float (volume c)), sq, hv, mb. reflexivity. }
  revert He Hs Hp Hok. generalize (sq && hv && mb). intros sig He Hs Hp Hok.
  destruct sig; eexists _, _; (split; [|exact Hok]);
    unfold alert_for; rewrite He, Hs, ?Hp.
  - unfold getitem. rewrite Hp. cbn [mbind result_bind bind squeeze_data world trace].
    rewrite <- app_assoc. reflexivity.
  - reflexivity.
Qed.

Lemma omap_record k d : omap alert_for [EvRecord k d] = option_list (alert_for (EvRecord k d)).
Proof. simpl. destruct (alert_for (EvRecord k d)); reflexivity. Qed.

(** The loop never raises.  It leaves [squeeze_data] alone, fills
    [temp_data] at the key of every ticker it visits, publishes
    nothing, records once per ticker and alerts exactly for the
    records that call for it. *)
Lemma scan_loop_spec tickers temp (sys : System World) :
  exists temp' w' evs,
    scan_loop' tickers temp sys
    = Ok (temp', mkSystem (squeeze_data sys) w' (trace sys ++ evs))
    /\ dom temp' = dom temp ∪ list_to_set ((fun raw => upper (strip raw)) <$> tickers)
    /\ (forall k d, temp' !! k = Some d -> temp !! k = Some d \/ EvRecord k d ∈ evs)
    /\ Forall (fun e => forall k d, e = EvRecord k d -> recorded_ok d) evs
    /\ List.filter is_publish evs = []
    /\ List.filter is_alert evs = omap alert_for evs
    /\ length (List.filter is_record evs) = length tickers.
Proof.
  revert temp sys. induction tickers as [|raw rest IH]; intros temp sys.
  - exists temp, (world sys), []. rewrite app_nil_r. destruct sys.
    split; [reflexivity|]. split; [set_solver|]. split; [by left|].
    split; [constructor|]. done.
  - destruct (loop_body_spec raw temp sys) as (d & w1 & Hb & Hd).
    simpl. rewrite Hb. cbn [mbind result_bind bind].
    match goal with
    | |- context [scan_loop _ _ _ _ _ rest ?t ?s] =>
        destruct (IH t s) as (temp' & w' & evs & Hl & Hdom & Hfrom & Hok & Hpub & Hal & Hrec)
    end.
    cbn [squeeze_data trace] in Hl. rewrite Hl.
    exists temp', w',
      ([EvRecord (upper (strip raw)) d]
         ++ option_list (alert_for (EvRecord (upper (strip raw)) d)) ++ evs).
    assert (Hopt : forall o : option Event,
               o = alert_for (EvRecord (upper (strip raw)) d) ->
               List.filter is_publish (option_list o) = []
               /\ List.filter is_alert (option_list o) = option_list o
               /\ omap alert_for (option_list o) = []
               /\ List.filter is_record (option_list o) = []
               /\ Forall (fun e => forall k d, e = EvRecord k d -> recorded_ok d)
                    (option_list o)).
    { intros o Ho. destruct o as [e|]; [|simpl; auto using Forall_nil].
      unfold alert_for in Ho.
      destruct (d !! "error") as [[[]| | |]|]; try discriminate.
      destruct (d !! "signal") as [[[]| | |]|]; try discriminate.
      destruct (d !! "price"); try discriminate.
      injection Ho as ->. simpl. repeat split; try reflexivity.
      constructor; [|constructor]. intros ? ? [=]. }
    destruct (Hopt _ eq_refl) as (Ho1 & Ho2 & Ho3 & Ho4 & Ho5).
    repeat split.
    + do 2 f_equal. rewrite <- app_assoc. reflexivity.
    + rewrite Hdom, dom_insert_L. set_solver.
    + intros k d' Hk. destruct (Hfrom k d' Hk) as [Hin|Hin].
      * destruct (decide (upper (strip raw) = k)) as [<-|Hne].
        -- rewrite lookup_insert_eq in Hin. injection Hin as <-.
           right. apply elem_of_app. left. apply list_elem_of_singleton. reflexivity.
        -- rewrite lookup_insert_ne in Hin by assumption. by left.
      * right. rewrite !elem_of_app. auto.
    + apply Forall_app. split; [|apply Forall_app; split; assumption].
      constructor; [intros ? ? [= <- <-]; assumption|constructor].
    + rewrite (List.filter_app _ [_]), List.filter_app, Ho1, Hpub. reflexivity.
    + rewrite (List.filter_app _ [_]), List.filter_app, Ho2.
      rewrite (omap_app _ [_]), omap_app, Ho3, Hal, omap_record.
      reflexivity.
    + rewrite (List.filter_app _ [_]), List.filter_app, Ho4. simpl.
      rewrite Hrec. reflexivity.
Qed.

(** A frame that passes the guard of the loop goes through the
    engine's full path and is stored as a Signal variant. *)
Lemma loop_body_engine raw temp (sys : System World) df w1 :
  fetch_yahoo_data (upper (strip raw)) (world sys) = (Some df, w1) ->
  (length df <? 50)%nat = false ->
  exists p v sq hv mb sys',
    calculate_squeeze sqrtQ df 20 2 (3 # 2) (3 # 2)
    = (sq && hv && mb, signal_details p v sq hv mb (sq && hv && mb))
    /\ loop_body' raw temp sys
       = Ok (<[upper (strip raw) :=
                 <["timestamp" := PyStr (now_isoformat w1).1]>
                   (signal_details p v sq hv mb (sq && hv && mb))]> temp, sys').
Proof.
  intros Hf Hlen.
  assert (Hge : (50 <= length df)%nat) by (apply Nat.ltb_ge; assumption).
  destruct (last_is_Some df) as [c Hc]; [lia|].
  exists (close c), (int_of_float (volume c)), (in_squeeze_row sqrtQ df 20 2 (3 # 2)),
    (high_volume_row df 20 (3 # 2)), (macd_row df).
  pose proof (calculate_squeeze_row sqrtQ df 20 2 (3 # 2) (3 # 2) c
                ltac:(lia) ltac:(lia) Hc) as Hrow.
  unfold loop_body. rewrite Hf, Hlen, Hrow.
  destruct (now_isoformat w1) as [ts w2]. cbn [fst].
  pose proof (stamped_lookups ts (close c) (int_of_float (volume c))
                (in_squeeze_row sqrtQ df 20 2 (3 # 2)) (high_volume_row df 20 (3 # 2))
                (macd_row df)
                (in_squeeze_row sqrtQ df 20 2 (3 # 2) && high_volume_row df 20 (3 # 2)
                 && macd_row df)) as (_ & _ & Hp).
  revert Hp.
  generalize (in_squeeze_row sqrtQ df 20 2 (3 # 2) && high_volume_row df 20 (3 # 2)
              && macd_row df).
  intros sig Hp. destruct sig.
  - unfold getitem. rewrite Hp. cbn [mbind result_bind bind]. eauto.
  - eauto.
Qed.

(** A frame that passes the guard and on which the engine raises its
    flag: the loop stores the result and alerts at once. *)
Lemma loop_body_alert raw temp (sys : System World) df w1 :
  fetch_yahoo_data (upper (strip raw)) (world sys) = (Some df, w1) ->
  (length df <? 50)%nat = false ->
  (calculate_squeeze sqrtQ df 20 2 (3 # 2) (3 # 2)).1 = true ->
  exists d p w',
    loop_body' raw temp sys
    = Ok (<[upper (strip raw) := d]> temp,
          mkSystem (squeeze_data sys) w'
            (trace sys ++ [EvRecord (upper (strip raw)) d; EvAlert (upper (strip raw)) p])).
Proof.
  intros Hf Hlen Hflag.
  assert (Hge : (50 <= length df)%nat) by (apply Nat.ltb_ge; assumption).
  destruct (last_is_Some df) as [c Hc]; [lia|].
  pose proof (calculate_squeeze_row sqrtQ df 20 2 (3 # 2) (3 # 2) c
                ltac:(lia) ltac:(lia) Hc) as Hrow.
  rewrite Hrow in Hflag. cbn [fst] in Hflag.
  unfold loop_body. rewrite Hf, Hlen, Hrow, Hflag.
  destruct (now_isoformat w1) as [ts w2].
  pose proof (stamped_lookups ts (close c) (int_of_float (volume c))
                (in_squeeze_row sqrtQ df 20 2 (3 # 2)) (high_volume_row df 20 (3 # 2))
                (macd_row df) true) as (_ & _ & Hp).
  unfold getitem. rewrite Hp. cbn [mbind result_bind bind squeeze_data world trace].
  rewrite <- app_assoc. eauto.
Qed.

(** [scan_markets] never raises, and what it does is: the events of
    the loop, then one publication of the snapshot the loop built. *)
Lemma scan_markets_spec (sys : System World) :
  exists sys' evs,
    scan_markets' sys = Ok sys'
    /\ trace sys' = trace sys ++ evs ++ [EvPublish (squeeze_data sys')]
    /\ dom (squeeze_data sys') = instruments TICKERS
    /\ (forall k d, squeeze_data sys' !! k = Some d -> EvRecord k d ∈ evs /\ recorded_ok d)
    /\ List.filter is_publish evs = []
    /\ List.filter is_alert evs = omap alert_for evs
    /\ length (List.filter is_record evs) = length TICKERS.
Proof.
  destruct (scan_loop_spec TICKERS ∅ sys)
    as (temp & w' & evs & Hl & Hdom & Hfrom & Hok & Hpub & Hal & Hrec).
  exists (publish temp (mkSystem (squeeze_data sys) w' (trace sys ++ evs))), evs.
  unfold scan_markets. rewrite Hl. cbn [mbind result_bind bind].
  split; [reflexivity|]. split; [simpl; by rewrite app_assoc|].
  split; [simpl; rewrite Hdom, dom_empty_L; unfold instruments; set_solver|].
  split; [|auto].
  intros k d Hk. simpl in Hk. destruct (Hfrom k d Hk) as [H0|Hin].
  - rewrite lookup_empty in H0. discriminate.
  - split; [assumption|].
    rewrite Forall_forall in Hok. eapply Hok; [exact Hin|reflexivity].
Qed.

(** A scan in progress, seen between its steps: until it has
    published, [squeeze_data] is what it was and the rest of the scan
    is still to run; once it has, the process is in the state
    [scan_markets] returns. *)
Lemma run_spec tickers temp (sysA sys : System World) job :
  rtc step' (sysA, Some (tickers, temp)) (sys, job) ->
  (squeeze_data sys = squeeze_data sysA
   /\ exists tickers' temp',
        job = Some (tickers', temp')
        /\ scan_loop' tickers temp sysA = scan_loop' tickers' temp' sys)
  \/ (job = None
      /\ exists temp' sys',
           scan_loop' tickers temp sysA = Ok (temp', sys')
           /\ sys = publish temp' sys').
Proof.
  intros H. remember (sysA, Some (tickers, temp)) as x eqn:Hx.
  remember (sys, job) as y eqn:Hy.
  revert tickers temp sysA Hx. induction H as [x|x z y Hstep Hrtc IH];
    intros tickers temp sysA Hx; subst.
  - injection Hx as -> ->. left. eauto.
  - inversion Hstep as [s raw rest t t' s' Hb|s t]; subst.
    + destruct (loop_body_spec raw temp sysA) as (d & w1 & Hb' & _).
      rewrite Hb' in Hb. injection Hb as <- <-.
      specialize (IH eq_refl _ _ _ eq_refl).
      assert (Heq : scan_loop' (raw :: rest) temp sysA
                    = scan_loop' rest (<[upper (strip raw) := d]> temp)
                        (mkSystem (squeeze_data sysA) w1
                           (trace sysA ++ EvRecord (upper (strip raw)) d
                              :: option_list (alert_for (EvRecord (upper (strip raw)) d))))).
      { simpl. rewrite Hb'. reflexivity. }
      rewrite Heq. exact IH.
    + right. inversion Hrtc as [|? ? ? Hs]; subst; [|inversion Hs].
      split; [reflexivity|]. exists temp, sysA. split; reflexivity.
Qed.

(** C3. Whenever a reader runs during a scan, from its start to its
    end: [scan_markets] completes with a snapshot whose keys are
    exactly the configured instruments and whose entries were all
    recorded by this scan, and [get_signals] returns either the
    snapshot in place when the scan started, untouched, or that new
    snapshot, the scan being over. *)
Theorem snapshot_replaced_wholesale (sys0 sys : System World) job :
  runs_to sqrtQ fetch_yahoo_data now_isoformat requests_post TICKERS DISCORD_WEBHOOK
    sys0 sys job ->
  exists new evs,
    scan_markets' sys0 = Ok new
    /\ dom (get_signals new) = instruments TICKERS
    /\ trace new = trace sys0 ++ evs ++ [EvPublish (get_signals new)]
    /\ (forall k d, get_signals new !! k = Some d -> EvRecord k d ∈ evs)
    /\ ((get_signals sys = get_signals sys0 /\ is_Some job)
        \/ (sys = new /\ job = None)).
Proof.
  intros Hrun. apply run_spec in Hrun.
  destruct (scan_markets_spec sys0) as (new & evs & Hm & Htr & Hdom & Hfrom & _).
  exists new, evs. repeat split; try assumption.
  - intros k d Hk. by apply Hfrom.
  - destruct Hrun as [(Hsame & ts & t & -> & _)|(-> & t & s & Hl & ->)].
    + left. split; [exact Hsame|eauto].
    + right. split; [|reflexivity].
      unfold scan_markets in Hm. rewrite Hl in Hm.
      cbn [mbind result_bind bind] in Hm. congruence.
Qed.

(** C9. A read that happens while the first scan has not published
    yet, be it before its first step or between two of them, returns
    the empty mapping. *)
Theorem read_before_first_publish (w : World) (sys : System World) job :
  runs_to sqrtQ fetch_yahoo_data now_isoformat requests_post TICKERS DISCORD_WEBHOOK
    (initial w) sys job ->
  (forall snap, EvPublish snap ∉ trace sys) ->
  get_signals sys = ∅.
Proof.
  intros Hrun Hnone. apply run_spec in Hrun.
  destruct Hrun as [(Hsame & _)|(_ & t & s & _ & ->)]; [exact Hsame|].
  exfalso. apply (Hnone t). simpl. apply elem_of_app. right.
  apply list_elem_of_singleton. reflexivity.
Qed.

(** C4, as the code has it. When [fetch_yahoo_data] returns [None] or
    a frame of fewer than 50 rows, the loop stores for the ticker the
    Error variant with [message = "No data available"] and
    [signal = False], and nothing else happens in that turn. *)
Theorem no_data_recorded raw temp (sys : System World) :
  (fetch_yahoo_data (upper (strip raw)) (world sys)).1 = None
  \/ (exists d, (fetch_yahoo_data (upper (strip raw)) (world sys)).1 = Some d
                /\ (length d < 50)%nat) ->
  exists d w',
    loop_body' raw temp sys
    = Ok (<[upper (strip raw) := d]> temp,
          mkSystem (squeeze_data sys) w' (trace sys ++ [EvRecord (upper (strip raw)) d]))
    /\ is_error_variant d "No data available"
    /\ d !! "signal" = Some (PyBool false).
Proof.
  intros H. exists no_data, (fetch_yahoo_data (upper (strip raw)) (world sys)).2.
  split; [by apply loop_body_no_data|].
  split; [split|]; apply no_data_lookups.
Qed.

(** C10. A frame that [scan_markets] hands to the engine has passed
    [len(df) < 50]; with the default lookback of 20 the test
    [len(df) < L + 26] of [calculate_squeeze] is then false, the engine
    returns a Signal variant, and that is what the loop stores: the
    empty result of the insufficient-data branch never shows. *)
Theorem insufficient_branch_dead raw temp (sys : System World) df w1 :
  fetch_yahoo_data (upper (strip raw)) (world sys) = (Some df, w1) ->
  (length df <? 50)%nat = false ->
  (Z.of_nat (length df) <? 20 + 26) = false
  /\ calculate_squeeze sqrtQ df 20 2 (3 # 2) (3 # 2) ≠ (false, ∅)
  /\ exists p v sq hv mb sys',
       calculate_squeeze sqrtQ df 20 2 (3 # 2) (3 # 2)
       = (sq && hv && mb, signal_details p v sq hv mb (sq && hv && mb))
       /\ loop_body' raw temp sys
          = Ok (<[upper (strip raw) :=
                    <["timestamp" := PyStr (now_isoformat w1).1]>
                      (signal_details p v sq hv mb (sq && hv && mb))]> temp, sys').
Proof.
  intros Hf Hlen.
  destruct (loop_body_engine raw temp sys df w1 Hf Hlen)
    as (p & v & sq & hv & mb & sys' & Hc & Hb).
  apply Nat.ltb_ge in Hlen. split; [lia|]. split; [|eauto 10].
  rewrite Hc. intros E.
  apply (f_equal (fun r : bool * Details => r.2 !! "error")) in E.
  simpl in E. rewrite lookup_empty in E. discriminate.
Qed.

End ScanFacts.

(** ** The scan on the concrete world *)

Lemma snapshot_replaced_wholesale_witness :
  runs_to sqrt6 demo_fetch demo_now demo_post [" tsla"] "" (initial 0%nat)
    (mkSystem ∅ 1%nat [EvRecord "TSLA" no_data])
    (Some ([], <["TSLA" := no_data]> ∅))
  /\ exists new evs,
       scan_markets sqrt6 demo_fetch demo_now demo_post [" tsla"] "" (initial 0%nat) = Ok new
       /\ dom (get_signals new) = instruments [" tsla"]
       /\ trace new = trace (initial 0%nat) ++ evs ++ [EvPublish (get_signals new)]
       /\ (forall k d, get_signals new !! k = Some d -> EvRecord k d ∈ evs)
       /\ ((get_signals (mkSystem ∅ 1%nat [EvRecord "TSLA" no_data])
            = get_signals (initial 0%nat)
            /\ is_Some (Some (([] : list string), <["TSLA" := no_data]> (∅ : Snapshot))))
           \/ (mkSystem ∅ 1%nat [EvRecord "TSLA" no_data] = new
               /\ Some (([] : list string), <["TSLA" := no_data]> (∅ : Snapshot)) = None)).
Proof.
  assert (Hrun : runs_to sqrt6 demo_fetch demo_now demo_post [" tsla"] "" (initial 0%nat)
                   (mkSystem ∅ 1%nat [EvRecord "TSLA" no_data])
                   (Some ([], <["TSLA" := no_data]> ∅))).
  { unfold runs_to, start. eapply rtc_l; [|apply rtc_refl].
    apply step_ticker. reflexivity. }
  split; [exact Hrun|].
  exact (snapshot_replaced_wholesale sqrt6 demo_fetch demo_now demo_post [" tsla"] ""
           _ _ _ Hrun).
Defined.

Lemma read_before_first_publish_witness :
  runs_to sqrt6 demo_fetch demo_now demo_post [" tsla"] "" (initial 0%nat)
    (mkSystem ∅ 1%nat [EvRecord "TSLA" no_data])
    (Some ([], <["TSLA" := no_data]> ∅))
  /\ (forall snap, EvPublish snap ∉ [EvRecord "TSLA" no_data])
  /\ get_signals (mkSystem ∅ 1%nat [EvRecord "TSLA" no_data]) = ∅.
Proof.
  assert (Hrun : runs_to sqrt6 demo_fetch demo_now demo_post [" tsla"] "" (initial 0%nat)
                   (mkSystem ∅ 1%nat [EvRecord "TSLA" no_data])
                   (Some ([], <["TSLA" := no_data]> ∅))).
  { unfold runs_to, start. eapply rtc_l; [|apply rtc_refl].
    apply step_ticker. reflexivity. }
  assert (Hnone : forall snap, EvPublish snap ∉ [EvRecord "TSLA" no_data]).
  { intros snap H. apply list_elem_of_singleton in H. discriminate. }
  split; [exact Hrun|]. split; [exact Hnone|].
  exact (read_before_first_publish sqrt6 demo_fetch demo_now demo_post [" tsla"] ""
           0%nat _ _ Hrun Hnone).
Defined.

Lemma no_data_recorded_witness :
  (demo_fetch (upper (strip " tsla")) (world (initial 0%nat))).1 = None
  /\ exists d w',
       loop_body sqrt6 demo_fetch demo_now demo_post "" " tsla" ∅ (initial 0%nat)
       = Ok (<[upper (strip " tsla") := d]> ∅,
             mkSystem ∅ w' ([] ++ [EvRecord (upper (strip " tsla")) d]))
       /\ is_error_variant d "No data available"
       /\ d !! "signal" = Some (PyBool false).
Proof.
  split; [reflexivity|].
  apply (no_data_recorded sqrt6 demo_fetch demo_now demo_post "" " tsla" ∅ (initial 0%nat)).
  left. reflexivity.
Defined.

(** C4 as stated fails on the text of the message: the record stored
    for a ticker the provider does not know is no Error variant
    carrying "no data available". *)
Lemma no_data_message_differs :
  exists sys d,
    demo_scan ["TSLA"] = Ok sys
    /\ squeeze_data sys !! "TSLA" = Some d
    /\ d !! "message" = Some (PyStr "No data available")
    /\ ~ is_error_variant d "no data available".
Proof.
  eexists _, _. split; [reflexivity|]. split; [reflexivity|].
  split; [reflexivity|]. intros [_ H]. vm_compute in H. discriminate.
Qed.

(** The handler of [calculate_squeeze] at work: a lookback of zero is
    refused by [ewm] and comes back as an Error variant. *)
Example bad_lookback_caught :
  calculate_squeeze sqrt6 df_signal 0 2 (3 # 2) (3 # 2)
  = (false, error_details "span must satisfy: span >= 1").
Proof. reflexivity. Qed.

Lemma macd_row_df_signal : macd_row df_signal = true.
Proof.
  exact (macd_row_uptick (candle 100 (1 # 2) 1000) (candle (1001 # 10) (1 # 2) 10000) 48
           eq_refl).
Qed.

(** C7 as stated fails on the order: scanning GME alone, whose frame
    gives a signal, the alert is the second event and the publication
    the third. *)
Lemma alert_precedes_publish :
  exists sys d p snap,
    demo_scan ["GME"] = Ok sys
    /\ trace sys = [EvRecord "GME" d; EvAlert "GME" p; EvPublish snap]
    /\ ~ alerts_after_publish (trace sys).
Proof.
  assert (Hflag : (calculate_squeeze sqrt6 df_signal 20 2 (3 # 2) (3 # 2)).1 = true).
  { rewrite (calculate_squeeze_row sqrt6 df_signal 20 2 (3 # 2) (3 # 2)
               (candle (1001 # 10) (1 # 2) 10000));
      [|lia|vm_compute; discriminate|reflexivity].
    cbn [fst]. rewrite macd_row_df_signal, andb_true_r.
    vm_compute. reflexivity. }
  destruct (loop_body_alert sqrt6 demo_fetch demo_now demo_post "" "GME" ∅ (initial 0%nat)
              df_signal 1%nat eq_refl eq_refl Hflag) as (d & p & w' & Hb).
  change (upper (strip "GME")) with "GME" in Hb.
  exists (publish (<["GME" := d]> ∅)
            (mkSystem ∅ w' ([] ++ [EvRecord "GME" d; EvAlert "GME" p]))),
    d, p, (<["GME" := d]> ∅).
  split; [|split; [reflexivity|]].
  - unfold demo_scan, scan_markets. cbn [scan_loop]. rewrite Hb. reflexivity.
  - intros H. specialize (H 1%nat 2%nat "GME" p _ eq_refl eq_refl). lia.
Qed.

Lemma insufficient_branch_dead_witness :
  demo_fetch (upper (strip "gme")) (world (initial 0%nat)) = (Some df_signal, 1%nat)
  /\ (length df_signal <? 50)%nat = false
  /\ (Z.of_nat (length df_signal) <? 20 + 26) = false
  /\ calculate_squeeze sqrt6 df_signal 20 2 (3 # 2) (3 # 2) ≠ (false, ∅).
Proof.
  split; [reflexivity|]. split; [reflexivity|].
  destruct (insufficient_branch_dead sqrt6 demo_fetch demo_now demo_post "" "gme" ∅
              (initial 0%nat) df_signal 1%nat eq_refl eq_refl) as (Hg & Hne & _).
  split; assumption.
Defined.

(** * Further properties of the code *)

(** ** The engine, field by field *)

Lemma signal_details_lookups p v sq hv mb sig :
  let d := signal_details p v sq hv mb sig in
  d !! "price" = Some (PyFloat p)
  /\ d !! "volume" = Some (PyInt v)
  /\ d !! "in_squeeze" = Some (PyBool sq)
  /\ d !! "high_volume" = Some (PyBool hv)
  /\ d !! "macd_bullish" = Some (PyBool mb)
  /\ d !! "signal" = Some (PyBool sig)
  /\ d !! "error" = Some (PyBool false)
  /\ d !! "message" = None
  /\ d !! "timestamp" = None.
Proof. repeat split. Qed.

Lemma error_details_lookups msg :
  let d := error_details msg in
  d !! "error" = Some (PyBool true)
  /\ d !! "message" = Some (PyStr msg)
  /\ d !! "signal" = None
  /\ d !! "price" = None.
Proof. repeat split. Qed.

(** The three ways [calculate_squeeze] can end. *)
Lemma calculate_squeeze_cases sqrtQ (df : DataFrame) (L : Z) (bb kc vol : Q) :
  (Z.of_nat (length df) < L + 26
   /\ calculate_squeeze sqrtQ df L bb kc vol = (false, ∅))
  \/ (L + 26 <= Z.of_nat (length df) /\ L < 1
      /\ calculate_squeeze sqrtQ df L bb kc vol
         = (false, error_details "span must satisfy: span >= 1"))
  \/ (L + 26 <= Z.of_nat (length df) /\ 1 <= L
      /\ exists c, last df = Some c
         /\ calculate_squeeze sqrtQ df L bb kc vol
            = (in_squeeze_row sqrtQ df L bb kc && high_volume_row df L vol && macd_row df,
               signal_details (close c) (int_of_float (volume c))
                 (in_squeeze_row sqrtQ df L bb kc) (high_volume_row df L vol) (macd_row df)
                 (in_squeeze_row sqrtQ df L bb kc && high_volume_row df L vol
                  && macd_row df))).
Proof.
  destruct (Z_lt_le_dec (Z.of_nat (length df)) (L + 26)) as [Hs|Hl].
  { left. split; [assumption|]. by apply calculate_squeeze_short. }
  right. destruct (Z_lt_le_dec L 1) as [HL|HL].
  { left. repeat split; try assumption. by apply calculate_squeeze_bad_span. }
  right. destruct (last_is_Some df) as [c Hc]; [lia|].
  repeat split; try assumption. exists c. split; [assumption|].
  by apply calculate_squeeze_row.
Qed.

(** X1. Whatever the frame and the parameters, the flag
    [calculate_squeeze] returns is true exactly when the dictionary
    beside it has [signal] true. *)
Theorem flag_is_signal_field sqrtQ (df : DataFrame) (L : Z) (bb kc vol : Q) :
  (calculate_squeeze sqrtQ df L bb kc vol).1 = true
  <-> (calculate_squeeze sqrtQ df L bb kc vol).2 !! "signal" = Some (PyBool true).
Proof.
  destruct (calculate_squeeze_cases sqrtQ df L bb kc vol)
    as [(_ & ->)|[(_ & _ & ->)|(_ & _ & c & _ & ->)]]; cbn [fst snd].
  - rewrite lookup_empty. split; discriminate.
  - split; discriminate.
  - generalize (in_squeeze_row sqrtQ df L bb kc && high_volume_row df L vol && macd_row df).
    intros sig.
    destruct (signal_details_lookups (close c) (int_of_float (volume c))
                (in_squeeze_row sqrtQ df L bb kc) (high_volume_row df L vol)
                (macd_row df) sig) as (_ & _ & _ & _ & _ & -> & _).
    split; [intros ->; reflexivity|intros [= ->]; reflexivity].
Qed.

(** The fields of the Signal variant, from the last row. *)
Lemma calculate_squeeze_fields sqrtQ (df : DataFrame) (L : Z) (bb kc vol : Q) c :
  1 <= L -> L + 26 <= Z.of_nat (length df) -> last df = Some c ->
  let r := calculate_squeeze sqrtQ df L bb kc vol in
  r.1 = in_squeeze_row sqrtQ df L bb kc && high_volume_row df L vol && macd_row df
  /\ r.2 !! "price" = Some (PyFloat (close c))
  /\ r.2 !! "volume" = Some (PyInt (int_of_float (volume c)))
  /\ r.2 !! "in_squeeze" = Some (PyBool (in_squeeze_row sqrtQ df L bb kc))
  /\ r.2 !! "high_volume" = Some (PyBool (high_volume_row df L vol))
  /\ r.2 !! "macd_bullish" = Some (PyBool (macd_row df)).
Proof.
  intros HL Hlen Hc r. subst r.
  rewrite (calculate_squeeze_row sqrtQ df L bb kc vol c HL Hlen Hc). cbn [fst snd].
  generalize (in_squeeze_row sqrtQ df L bb kc && high_volume_row df L vol && macd_row df).
  intros sig. repeat split.
Qed.

(** The last window of a column is the column of the last rows. *)
Lemma last_window_fmap (f : Candle -> Q) (df : DataFrame) (L : Z) :
  (1 <= length df)%nat ->
  last_window L (f <$> df)
  = f <$> take (Z.to_nat L) (drop (length df - Z.to_nat L) df).
Proof.
  intros H. unfold last_window, window.
  rewrite length_fmap, fmap_take, fmap_drop.
  replace (length df - 1 + 1 - Z.to_nat L)%nat with (length df - Z.to_nat L)%nat by lia.
  reflexivity.
Qed.

Lemma Forall_last_elem {A : Type} (P : A -> Prop) (l : list A) x :
  Forall P l -> last l = Some x -> P x.
Proof.
  intros HF Hl. apply last_Some in Hl as [l' ->].
  apply Forall_app in HF as [_ HF]. by inversion HF.
Qed.

Lemma ewm_list_flat span c xs :
  Forall (fun x => (x == c)%Q) xs -> Forall (fun x => (x == c)%Q) (ewm_list span xs).
Proof.
  intros HF. destruct HF as [|x xs Hx HF]; [constructor|].
  simpl. constructor; [exact Hx|]. by apply ewm_from_flat.
Qed.

(** X4. Closes that never move give no momentum: on a frame whose
    closes are all equal, MACD and its signal line are both zero, the
    strict comparison fails, and [macd_bullish], [signal] and the flag
    are false. *)
Theorem flat_close_no_momentum sqrtQ (df : DataFrame) (L : Z) (bb kc vol c : Q) :
  1 <= L -> L + 26 <= Z.of_nat (length df) ->
  Forall (fun k => (close k == c)%Q) df ->
  (calculate_squeeze sqrtQ df L bb kc vol).2 !! "macd_bullish" = Some (PyBool false)
  /\ (calculate_squeeze sqrtQ df L bb kc vol).1 = false.
Proof.
  intros HL Hlen HF.
  destruct (last_is_Some df) as [k Hk]; [lia|].
  destruct (calculate_squeeze_fields sqrtQ df L bb kc vol k HL Hlen Hk)
    as (Hflag & _ & _ & _ & _ & Hmb).
  assert (Hrow : macd_row df = false).
  { unfold macd_row.
    assert (Hc : Forall (fun x => (x == c)%Q) (close <$> df)).
    { apply Forall_fmap. eapply Forall_impl; [exact HF|]. intros x Hx. exact Hx. }
    pose proof (zip_minus_flat c _ _ (ewm_list_flat 12 c _ Hc) (ewm_list_flat 26 c _ Hc))
      as Hmacd.
    pose proof (ewm_list_flat 9 0 _ Hmacd) as Hsig.
    destruct (last (zip_with Qminus (ewm_list 12 (close <$> df))
                      (ewm_list 26 (close <$> df)))) as [m|] eqn:Hm; [|reflexivity].
    destruct (last (ewm_list 9 (zip_with Qminus (ewm_list 12 (close <$> df))
                                  (ewm_list 26 (close <$> df))))) as [g|] eqn:Hg;
      [|reflexivity].
    cbn [fgt]. destruct (Qltb g m) eqn:Hlt; [|reflexivity].
    apply Qltb_lt in Hlt.
    pose proof (Forall_last_elem _ _ _ Hmacd Hm) as Hm0.
    pose proof (Forall_last_elem _ _ _ Hsig Hg) as Hg0.
    cbv beta in Hm0, Hg0. rewrite Hm0, Hg0 in Hlt. lra. }
  rewrite Hmb, Hflag, Hrow, andb_false_r. split; reflexivity.
Qed.

(** X5. With volumes that are not negative in the last [L] rows,
    raising the volume multiplier can only turn [high_volume] from
    true to false. *)
Theorem high_volume_antitone sqrtQ (df : DataFrame) (L : Z) (bb kc vol vol' : Q) :
  (vol <= vol')%Q ->
  Forall (fun k => (0 <= volume k)%Q) (drop (length df - Z.to_nat L) df) ->
  (calculate_squeeze sqrtQ df L bb kc vol').2 !! "high_volume" = Some (PyBool true) ->
  (calculate_squeeze sqrtQ df L bb kc vol).2 !! "high_volume" = Some (PyBool true).
Proof.
  intros Hvol HF H.
  destruct (calculate_squeeze_cases sqrtQ df L bb kc vol')
    as [(_ & E)|[(_ & _ & E)|(Hlen & HL & c & Hc & _)]].
  { rewrite E in H. cbn [snd] in H. rewrite lookup_empty in H. discriminate. }
  { rewrite E in H. discriminate. }
  destruct (calculate_squeeze_fields sqrtQ df L bb kc vol' c HL Hlen Hc)
    as (_ & _ & _ & _ & Hhv' & _).
  destruct (calculate_squeeze_fields sqrtQ df L bb kc vol c HL Hlen Hc)
    as (_ & _ & _ & _ & Hhv & _).
  rewrite Hhv' in H. rewrite Hhv. injection H as H. do 2 f_equal.
  revert H. unfold high_volume_row. rewrite fmap_last, Hc.
  cbn [fmap option_fmap option_map]. rewrite last_window_fmap by lia.
  destruct (mean (volume <$> take (Z.to_nat L) (drop (length df - Z.to_nat L) df)))
    as [a|] eqn:Ha; [|discriminate].
  cbn [option_map fgt]. rewrite !Qltb_lt. intros Hlt.
  assert (H0 : (0 <= a)%Q).
  { eapply mean_nonneg; [|exact Ha]. apply Forall_fmap, Forall_take.
    eapply Forall_impl; [exact HF|]. intros k Hk. exact Hk. }
  assert (Hp : (vol * a <= vol' * a)%Q) by (apply Qmult_le_compat_r; assumption).
  lra.
Qed.

(** X7. Candles without a range never squeeze: with a square root
    that is not negative and a Bollinger multiplier that is not
    negative, a frame whose last [L] rows have [high = low] has
    [in_squeeze] false, whatever its closes. *)
Theorem no_range_no_squeeze sqrtQ (df : DataFrame) (L : Z) (bb kc vol : Q) :
  (forall x, (0 <= sqrtQ x)%Q) -> (0 <= bb)%Q ->
  Forall (fun k => (high k == low k)%Q) (drop (length df - Z.to_nat L) df) ->
  (calculate_squeeze sqrtQ df L bb kc vol).2 !! "in_squeeze" ≠ Some (PyBool true).
Proof.
  intros Hnn Hbb HF H.
  apply in_squeeze_field in H as (HL & Hlen & Hrow).
  unfold in_squeeze_row in Hrow.
  apply squeeze_test_true in Hrow as (e & a & m & s & _ & Ha & _ & Hs & H1 & H2).
  rewrite last_window_fmap in Ha by lia.
  assert (Ha0 : (a == 0)%Q).
  { eapply mean_zero; [|exact Ha]. apply Forall_fmap, Forall_take.
    eapply Forall_impl; [exact HF|]. intros k Hk. unfold spread, compose.
    cbv beta in *. rewrite Hk. ring. }
  assert (Hs0 : (0 <= s)%Q) by (eapply std_nonneg; eassumption).
  assert (Hp : (0 <= bb * s)%Q) by (apply Qmult_le_0_compat; assumption).
  rewrite Ha0 in H1, H2. lra.
Qed.

Lemma int_of_float_nonneg x :
  (0 <= x)%Q -> (inject_Z (int_of_float x) <= x)%Q /\ (x < inject_Z (int_of_float x) + 1)%Q.
Proof.
  intros H. assert (Hn : 0 <= Qnum x).
  { unfold Qle in H. simpl in H. lia. }
  assert (E : int_of_float x = Qfloor x).
  { unfold int_of_float, Qfloor. destruct x as [n d]. simpl in *.
    apply Z.quot_div_nonneg; lia. }
  rewrite E. split; [apply Qfloor_le|].
  pose proof (Qlt_floor x) as Hlt. rewrite inject_Z_plus in Hlt. exact Hlt.
Qed.

(** X8. The [price] of a Signal variant is the close of the last row of
    the frame, and its [volume] is the volume of that row cut to a
    whole number: for a volume that is not negative, the largest
    integer not above it. *)
Theorem price_and_volume_of_last_row sqrtQ (df : DataFrame) (L : Z) (bb kc vol : Q) c :
  1 <= L -> L + 26 <= Z.of_nat (length df) -> last df = Some c -> (0 <= volume c)%Q ->
  exists z,
    (calculate_squeeze sqrtQ df L bb kc vol).2 !! "price" = Some (PyFloat (close c))
    /\ (calculate_squeeze sqrtQ df L bb kc vol).2 !! "volume" = Some (PyInt z)
    /\ (inject_Z z <= volume c)%Q /\ (volume c < inject_Z z + 1)%Q.
Proof.
  intros HL Hlen Hc Hv. exists (int_of_float (volume c)).
  destruct (calculate_squeeze_fields sqrtQ df L bb kc vol c HL Hlen Hc)
    as (_ & Hp & Hvol & _).
  destruct (int_of_float_nonneg (volume c) Hv). auto.
Qed.

(** ** The scan, event by event *)

Section ScanMore.

Context {World : Type}.
Variable sqrtQ : Q -> Q.
Variable fetch_yahoo_data : string -> World -> option DataFrame * World.
Variable now_isoformat : World -> string * World.
Variable requests_post : string -> string -> pyval -> World -> World.
Variable TICKERS : list string.
Variable DISCORD_WEBHOOK : string.

Local Abbreviation loop_body' :=
  (loop_body sqrtQ fetch_yahoo_data now_isoformat requests_post DISCORD_WEBHOOK).
Local Abbreviation scan_loop' :=
  (scan_loop sqrtQ fetch_yahoo_data now_isoformat requests_post DISCORD_WEBHOOK).
Local Abbreviation scan_markets' :=
  (scan_markets sqrtQ fetch_yahoo_data now_isoformat requests_post TICKERS DISCORD_WEBHOOK).
Local Abbreviation replay' :=
  (replay fetch_yahoo_data now_isoformat requests_post DISCORD_WEBHOOK).

Lemma replay_app evs1 evs2 (w : World) :
  replay' (evs1 ++ evs2) w = replay' evs2 (replay' evs1 w).
Proof. unfold replay. apply fold_left_app. Qed.

(** One turn of the loop, with what it does to the world. *)
Lemma loop_body_replay raw temp (sys : System World) :
  exists d,
    let evs := EvRecord (upper (strip raw)) d
               :: option_list (alert_for (EvRecord (upper (strip raw)) d)) in
    loop_body' raw temp sys
    = Ok (<[upper (strip raw) := d]> temp,
          mkSystem (squeeze_data sys) (replay' evs (world sys)) (trace sys ++ evs))
    /\ Forall loop_event evs.
Proof.
  destruct (fetch_yahoo_data (upper (strip raw)) (world sys)) as [df w1] eqn:Hf.
  assert (Hnone : (df = None \/ exists d, df = Some d /\ (length d < 50)%nat) ->
                  exists d,
                    let evs := EvRecord (upper (strip raw)) d
                               :: option_list (alert_for (EvRecord (upper (strip raw)) d)) in
                    loop_body' raw temp sys
                    = Ok (<[upper (strip raw) := d]> temp,
                          mkSystem (squeeze_data sys) (replay' evs (world sys))
                            (trace sys ++ evs))
                    /\ Forall loop_event evs).
  { intros H. exists no_data. cbn zeta. split.
    - rewrite loop_body_no_data by (rewrite Hf; exact H).
      unfold replay. cbn [alert_for option_list fold_left replay_event].
      rewrite Hf. reflexivity.
    - constructor; [by left|constructor]. }
  destruct df as [d|]; [|apply Hnone; by left].
  destruct (length d <? 50)%nat eqn:Hlen.
  { apply Hnone. right. exists d. split; [reflexivity|]. by apply Nat.ltb_lt. }
  clear Hnone. apply Nat.ltb_ge in Hlen.
  destruct (last_is_Some d) as [c Hc]; [lia|].
  unfold loop_body. rewrite Hf.
  destruct (length d <? 50)%nat eqn:Hlt; [apply Nat.ltb_lt in Hlt; lia|].
  rewrite (calculate_squeeze_row sqrtQ d 20 2 (3 # 2) (3 # 2) c) by (lia || assumption).
  set (sq := in_squeeze_row sqrtQ d 20 2 (3 # 2)).
  set (hv := high_volume_row d 20 (3 # 2)).
  set (mb := macd_row d).
  destruct (now_isoformat w1) as [ts w2] eqn:Hnow.
  pose proof (stamped_lookups ts (close c) (int_of_float (volume c)) sq hv mb
                (sq && hv && mb)) as (He & Hs & Hp).
  assert (Hts : (<["timestamp" := PyStr ts]>
                   (signal_details (close c) (int_of_float (volume c)) sq hv mb
                      (sq && hv && mb)) : Details) !! "timestamp" = Some (PyStr ts))
    by apply lookup_insert_eq.
  assert (Hok : recorded_ok
            (<["timestamp" := PyStr ts]>
               (signal_details (close c) (int_of_float (volume c)) sq hv mb
                  (sq && hv && mb)))).
  { right. exists ts, (close c), (int_of_float (volume c)), sq, hv, mb. reflexivity. }
  revert He Hs Hp Hts Hok. generalize (sq && hv && mb). intros sig He Hs Hp Hts Hok.
  eexists. cbn zeta. unfold alert_for. rewrite He, Hs.
  destruct sig; rewrite ?Hp.
  - unfold getitem. rewrite Hp.
    cbn [mbind result_bind bind squeeze_data world trace option_list].
    unfold replay. cbn [fold_left replay_event]. rewrite Hf, Hts. cbn [snd].
    rewrite Hnow. cbn [snd]. rewrite <- app_assoc. split; [reflexivity|].
    constructor; [exact Hok|]. constructor; [by eexists|constructor].
  - cbn [option_list]. unfold replay. cbn [fold_left replay_event].
    rewrite Hf, Hts. cbn [snd]. rewrite Hnow. cbn [snd]. split; [reflexivity|].
    constructor; [exact Hok|constructor].
Qed.

Lemma last_record_app k evs1 evs2 :
  last_record k (evs1 ++ evs2)
  = match last_record k evs2 with
    | Some d => Some d
    | None => last_record k evs1
    end.
Proof.
  induction evs1 as [|e evs1 IH]; simpl.
  - by destruct (last_record k evs2).
  - rewrite IH. destruct (last_record k evs2); [reflexivity|].
    reflexivity.
Qed.

Lemma last_record_turn k k0 d :
  last_record k (EvRecord k0 d :: option_list (alert_for (EvRecord k0 d)))
  = if decide (k0 = k) then Some d else None.
Proof.
  destruct (alert_for (EvRecord k0 d)) as [e|] eqn:E; simpl; [|reflexivity].
  unfold alert_for in E.
  destruct (d !! "error") as [[[]| | |]|]; try discriminate.
  destruct (d !! "signal") as [[[]| | |]|]; try discriminate.
  destruct (d !! "price"); try discriminate.
  injection E as <-. reflexivity.
Qed.

Lemma record_key_turn k0 d :
  omap record_key (EvRecord k0 d :: option_list (alert_for (EvRecord k0 d))) = [k0].
Proof.
  destruct (alert_for (EvRecord k0 d)) as [e|] eqn:E; simpl; [|reflexivity].
  unfold alert_for in E.
  destruct (d !! "error") as [[[]| | |]|]; try discriminate.
  destruct (d !! "signal") as [[[]| | |]|]; try discriminate.
  destruct (d !! "price"); try discriminate.
  injection E as <-. reflexivity.
Qed.

(** The loop, with the world it leaves, the records in the order of
    the tickers, and [temp_data] holding for each key the last record
    made for it. *)
Lemma scan_loop_replay tickers temp (sys : System World) :
  exists temp' evs,
    scan_loop' tickers temp sys
    = Ok (temp', mkSystem (squeeze_data sys) (replay' evs (world sys)) (trace sys ++ evs))
    /\ (forall k, temp' !! k = match last_record k evs with
                               | Some d => Some d
                               | None => temp !! k
                               end)
    /\ omap record_key evs = (fun raw => upper (strip raw)) <$> tickers
    /\ Forall loop_event evs.
Proof.
  revert temp sys. induction tickers as [|raw rest IH]; intros temp sys.
  - exists temp, []. rewrite app_nil_r. destruct sys. simpl.
    repeat split; constructor.
  - destruct (loop_body_replay raw temp sys) as (d & Hb & Hev). cbn zeta in Hb, Hev.
    simpl scan_loop. rewrite Hb. cbn [mbind result_bind bind].
    match goal with
    | |- context [scan_loop _ _ _ _ _ rest ?t ?s] =>
        destruct (IH t s) as (temp' & evs & Hl & Hlast & Hkeys & Hall)
    end.
    cbn [squeeze_data world trace] in Hl. rewrite Hl.
    exists temp',
      ((EvRecord (upper (strip raw)) d
          :: option_list (alert_for (EvRecord (upper (strip raw)) d))) ++ evs).
    split; [by rewrite replay_app, app_assoc|].
    split; [|split].
    + intros k. rewrite Hlast, last_record_app.
      destruct (last_record k evs); [reflexivity|].
      rewrite last_record_turn.
      destruct (decide (upper (strip raw) = k)) as [<-|Hne].
      * apply lookup_insert_eq.
      * by apply lookup_insert_ne.
    + rewrite omap_app, record_key_turn, Hkeys. reflexivity.
    + apply Forall_app. split; assumption.
Qed.

(** X9. A scan records the configured tickers once each, in the order
    of the configuration and under their normalised names, and the
    snapshot it publishes holds for every key the last record made for
    it: a ticker configured twice is fetched twice and its later
    result overwrites the earlier one. *)
Theorem last_record_wins (sys : System World) :
  exists sys' evs,
    scan_markets' sys = Ok sys'
    /\ trace sys' = trace sys ++ evs ++ [EvPublish (squeeze_data sys')]
    /\ omap record_key evs = (fun raw => upper (strip raw)) <$> TICKERS
    /\ forall k, squeeze_data sys' !! k = last_record k evs.
Proof.
  destruct (scan_loop_replay TICKERS ∅ sys) as (temp & evs & Hl & Hlast & Hkeys & _).
  unfold scan_markets. rewrite Hl. cbn [mbind result_bind bind].
  eexists _, evs. split; [reflexivity|]. cbn [publish squeeze_data trace].
  split; [by rewrite app_assoc|]. split; [assumption|].
  intros k. rewrite Hlast, lookup_empty. by destruct (last_record k evs).
Qed.

Lemma size_list_to_set_le (l : list string) :
  (size (list_to_set l : gset string) <= length l)%nat.
Proof.
  induction l as [|x l IH].
  - rewrite list_to_set_nil, size_empty. simpl. lia.
  - rewrite list_to_set_cons, size_union_alt, size_singleton. simpl length.
    pose proof (subseteq_size (list_to_set l ∖ {[x]} : gset string) (list_to_set l)
                  ltac:(set_solver)).
    lia.
Qed.

(** X11. A published snapshot has at most as many entries as there are
    configured tickers, exactly as many when their normalised names
    are all different, and at least one as soon as a ticker is
    configured. *)
Theorem snapshot_size (sys : System World) :
  exists sys',
    scan_markets' sys = Ok sys'
    /\ (size (squeeze_data sys') <= length TICKERS)%nat
    /\ (NoDup ((fun raw => upper (strip raw)) <$> TICKERS) ->
        size (squeeze_data sys') = length TICKERS)
    /\ (TICKERS ≠ [] -> squeeze_data sys' ≠ ∅).
Proof.
  destruct (scan_markets_spec sqrtQ fetch_yahoo_data now_isoformat requests_post TICKERS
              DISCORD_WEBHOOK sys) as (sys' & evs & Hm & _ & Hdom & _).
  exists sys'. split; [exact Hm|].
  rewrite <- (size_dom (D := gset string)), Hdom. unfold instruments.
  split; [|split].
  - etrans; [apply size_list_to_set_le|]. by rewrite length_fmap.
  - intros Hnd. rewrite size_list_to_set by assumption. by rewrite length_fmap.
  - intros Hne E. apply (dom_empty_iff_L (D := gset string)) in E.
    rewrite Hdom in E. unfold instruments in E.
    destruct TICKERS as [|raw rest]; [congruence|].
    assert (upper (strip raw) ∈ (∅ : gset string)); [|set_solver].
    rewrite <- E. set_solver.
Qed.

(** X12. Without a webhook a scan never touches [requests.post]:
    whatever the post would do, the scan returns the same process
    state. *)
Theorem no_webhook_no_post
    (post1 post2 : string -> string -> pyval -> World -> World) (sys : System World) :
  scan_markets sqrtQ fetch_yahoo_data now_isoformat post1 TICKERS "" sys
  = scan_markets sqrtQ fetch_yahoo_data now_isoformat post2 TICKERS "" sys.
Proof.
  assert (Hloop : forall tickers temp s,
             scan_loop sqrtQ fetch_yahoo_data now_isoformat post1 "" tickers temp s
             = scan_loop sqrtQ fetch_yahoo_data now_isoformat post2 "" tickers temp s).
  { induction tickers as [|raw rest IH]; intros temp s; [reflexivity|].
    simpl scan_loop.
    assert (Hb : loop_body sqrtQ fetch_yahoo_data now_isoformat post1 "" raw temp s
                 = loop_body sqrtQ fetch_yahoo_data now_isoformat post2 "" raw temp s)
      by reflexivity.
    rewrite Hb.
    destruct (loop_body sqrtQ fetch_yahoo_data now_isoformat post2 "" raw temp s)
      as [[t s']|msg]; [|reflexivity].
    cbn [mbind result_bind bind]. apply IH. }
  unfold scan_markets. rewrite Hloop. reflexivity.
Qed.

End ScanMore.

(** ** The scan on the logging world *)

Lemma replay_log respond clock webhook evs (log : list Call) :
  replay (log_fetch respond) (log_now clock) log_post webhook evs log
  = log ++ flat_map (calls_of webhook) evs.
Proof.
  revert log. induction evs as [|e evs IH]; intros log.
  - simpl. by rewrite app_nil_r.
  - unfold replay in *. cbn [fold_left flat_map]. rewrite IH, app_assoc. f_equal.
    destruct e as [k d|k p|snap]; cbn [replay_event calls_of].
    + unfold log_fetch, log_now. cbn [snd].
      destruct (d !! "timestamp"); cbn [snd]; [|reflexivity].
      by rewrite <- app_assoc.
    + unfold send_discord_alert, log_post.
      destruct (String.eqb webhook ""); [by rewrite app_nil_r|].
      destruct p; try reflexivity. by rewrite app_nil_r.
    + by rewrite app_nil_r.
Qed.

Lemma fetch_calls_of webhook evs :
  List.filter is_fetch (flat_map (calls_of webhook) evs)
  = CallFetch <$> omap record_key evs.
Proof.
  induction evs as [|e evs IH]; [reflexivity|].
  cbn [flat_map]. rewrite List.filter_app, IH.
  destruct e as [k d|k p|snap]; cbn [calls_of record_key omap list_omap].
  - destruct (d !! "timestamp"); reflexivity.
  - destruct (String.eqb webhook ""); [reflexivity|]. destruct p; reflexivity.
  - reflexivity.
Qed.

Lemma post_calls_of webhook evs :
  Forall loop_event evs ->
  List.filter is_post (flat_map (calls_of webhook) evs)
  = if String.eqb webhook "" then [] else omap (post_of webhook) evs.
Proof.
  induction 1 as [|e evs He _ IH].
  - by destruct (String.eqb webhook "").
  - cbn [flat_map]. rewrite List.filter_app, IH.
    destruct e as [k d|k p|snap]; cbn [calls_of post_of omap list_omap].
    + destruct (d !! "timestamp"); reflexivity.
    + destruct He as [q ->]. destruct (String.eqb webhook ""); reflexivity.
    + destruct He.
Qed.

(** X13. A scan asks the provider once per configured ticker, in the
    order of the configuration and under the normalised name, whatever
    the provider answers and however its answers depend on what
    happened before. *)
Theorem provider_asked_once_per_ticker sqrtQ respond clock tickers webhook
    (sys : System (list Call)) :
  exists sys' calls,
    scan_markets sqrtQ (log_fetch respond) (log_now clock) log_post tickers webhook sys
    = Ok sys'
    /\ world sys' = world sys ++ calls
    /\ List.filter is_fetch calls
       = CallFetch <$> ((fun raw => upper (strip raw)) <$> tickers).
Proof.
  destruct (scan_loop_replay sqrtQ (log_fetch respond) (log_now clock) log_post webhook
              tickers ∅ sys) as (temp & evs & Hl & _ & Hkeys & _).
  unfold scan_markets. rewrite Hl. cbn [mbind result_bind bind].
  eexists _, (flat_map (calls_of webhook) evs). split; [reflexivity|].
  cbn [publish world]. split; [apply replay_log|].
  by rewrite fetch_calls_of, Hkeys.
Qed.

(** X14. With a webhook set, a scan posts to it once per alert, in
    order, with the alert's symbol and price, so a signal that stays
    true is posted again by every scan; with no webhook it posts
    nothing. *)
Theorem posts_follow_alerts sqrtQ respond clock tickers webhook
    (sys : System (list Call)) :
  exists sys' evs calls,
    scan_markets sqrtQ (log_fetch respond) (log_now clock) log_post tickers webhook sys
    = Ok sys'
    /\ trace sys' = trace sys ++ evs ++ [EvPublish (squeeze_data sys')]
    /\ world sys' = world sys ++ calls
    /\ List.filter is_post calls
       = if String.eqb webhook "" then [] else omap (post_of webhook) evs.
Proof.
  destruct (scan_loop_replay sqrtQ (log_fetch respond) (log_now clock) log_post webhook
              tickers ∅ sys) as (temp & evs & Hl & _ & _ & Hall).
  unfold scan_markets. rewrite Hl. cbn [mbind result_bind bind].
  eexists _, evs, (flat_map (calls_of webhook) evs). split; [reflexivity|].
  cbn [publish world trace squeeze_data]. split; [by rewrite app_assoc|].
  split; [apply replay_log|]. by apply post_calls_of.
Qed.

(** ** Configuration and ticker names *)

Lemma split_comma_nonempty s : Config.split_comma s ≠ [].
Proof.
  destruct s as [|c s]; simpl; [discriminate|].
  destruct (Ascii.eqb c ","); [discriminate|].
  destruct (Config.split_comma s); discriminate.
Qed.

(** X15. [split(',')] undoes [','.join]: the pieces of a text, joined
    by commas, give the text back; there is always at least one piece,
    and no piece holds a comma.  So an empty [TICKERS] variable
    configures one ticker, the empty one. *)
Theorem split_comma_round_trip (s : string) :
  String.concat "," (Config.split_comma s) = s
  /\ Config.split_comma s ≠ []
  /\ Forall (fun piece => forall n, String.get n piece ≠ Some ","%char)
       (Config.split_comma s).
Proof.
  split; [|split; [apply split_comma_nonempty|]].
  - induction s as [|c s IH]; [reflexivity|]. simpl.
    pose proof (split_comma_nonempty s) as Hne.
    destruct (Ascii.eqb c ",") eqn:E.
    + apply Ascii.eqb_eq in E. subst c.
      destruct (Config.split_comma s) as [|p ps]; [congruence|].
      change (String.concat "," (EmptyString :: p :: ps))
        with (String "," (String.concat "," (p :: ps))).
      by rewrite IH.
    + destruct (Config.split_comma s) as [|p ps]; [congruence|].
      rewrite <- IH. destruct ps; reflexivity.
  - induction s as [|c s IH]; simpl.
    + constructor; [|constructor]. intros n. destruct n; discriminate.
    + destruct (Ascii.eqb c ",") eqn:E.
      * constructor; [|exact IH]. intros n. destruct n; discriminate.
      * destruct (Config.split_comma s) as [|p ps]; [constructor; [|constructor]|].
        -- intros [|n]; simpl; [|destruct n; discriminate].
           intros [= ->]. by rewrite Ascii.eqb_refl in E.
        -- inversion IH as [|? ? Hp Hps]; subst. constructor; [|exact Hps].
           intros [|n]; simpl; [|apply Hp].
           intros [= ->]. by rewrite Ascii.eqb_refl in E.
Qed.

Lemma is_space_upper c : is_space (upper_ascii c) = is_space c.
Proof. destruct c as [[] [] [] [] [] [] [] []]; reflexivity. Qed.

Lemma upper_ascii_idem c : upper_ascii (upper_ascii c) = upper_ascii c.
Proof. destruct c as [[] [] [] [] [] [] [] []]; reflexivity. Qed.

Lemma upper_idem s : upper (upper s) = upper s.
Proof. induction s as [|c s IH]; simpl; [reflexivity|]. by rewrite upper_ascii_idem, IH. Qed.

Lemma lstrip_upper s : lstrip (upper s) = upper (lstrip s).
Proof.
  induction s as [|c s IH]; simpl; [reflexivity|].
  rewrite is_space_upper. destruct (is_space c); [exact IH|reflexivity].
Qed.

Lemma rstrip_upper s : rstrip (upper s) = upper (rstrip s).
Proof.
  induction s as [|c s IH]; simpl; [reflexivity|].
  rewrite IH, is_space_upper.
  destruct (rstrip s); simpl; [destruct (is_space c)|]; reflexivity.
Qed.

Lemma lstrip_clean s : starts_clean (lstrip s).
Proof.
  induction s as [|c s IH]; simpl; [exact I|].
  destruct (is_space c) eqn:E; [exact IH|exact E].
Qed.

Lemma lstrip_of_clean s : starts_clean s -> lstrip s = s.
Proof. destruct s as [|c s]; simpl; [reflexivity|]. by intros ->. Qed.

Lemma rstrip_clean s : starts_clean s -> starts_clean (rstrip s).
Proof.
  destruct s as [|c s]; simpl; [trivial|]. intros E.
  destruct (rstrip s); [rewrite E|]; exact E.
Qed.

Lemma rstrip_idem s : rstrip (rstrip s) = rstrip s.
Proof.
  induction s as [|c s IH]; simpl; [reflexivity|].
  destruct (rstrip s) as [|c' r] eqn:Er.
  - destruct (is_space c) eqn:E; simpl; [reflexivity|]. by rewrite E.
  - change (rstrip (String c (String c' r)))
      with (match rstrip (String c' r) with
            | EmptyString => if is_space c then EmptyString else String c EmptyString
            | r0 => String c r0
            end).
    rewrite IH. reflexivity.
Qed.

(** X16. The key a ticker is stored under is already normalised:
    [strip] and [upper] leave it as it is, so configuring a ticker by
    its key, or with other case or surrounding blanks, leads to the
    same entry (ASCII names). *)
Theorem ticker_key_is_normal (raw : string) :
  strip (upper (strip raw)) = upper (strip raw)
  /\ upper (upper (strip raw)) = upper (strip raw)
  /\ upper (strip (upper (strip raw))) = upper (strip raw).
Proof.
  assert (Hs : strip (upper (strip raw)) = upper (strip raw)).
  { unfold strip. rewrite lstrip_upper, rstrip_upper. f_equal.
    rewrite lstrip_of_clean by apply rstrip_clean, lstrip_clean.
    apply rstrip_idem. }
  split; [exact Hs|]. split; [apply upper_idem|].
  rewrite Hs. apply upper_idem.
Qed.

(** X17. Whatever the environment holds, a completed scan publishes a
    snapshot with at least one entry.  With [TICKERS] unset the
    entries are those of TSLA, AMD, GME, NVDA and IONQ; with [TICKERS]
    set to the empty text there is one entry, under the empty name. *)
Theorem configured_scan_never_empty {World : Type} sqrtQ
    (fetch : string -> World -> option DataFrame * World)
    (now : World -> string * World)
    (post : string -> string -> pyval -> World -> World)
    (tickers_env webhook_env : option string) (sys : System World) :
  exists sys',
    scan_markets sqrtQ fetch now post (Config.TICKERS tickers_env)
      (Config.DISCORD_WEBHOOK webhook_env) sys = Ok sys'
    /\ squeeze_data sys' ≠ ∅
    /\ (tickers_env = None ->
        dom (squeeze_data sys') = ({[ "TSLA"; "AMD"; "GME"; "NVDA"; "IONQ" ]} : gset string))
    /\ (tickers_env = Some ""%string ->
        dom (squeeze_data sys') = ({[ ""%string ]} : gset string)).
Proof.
  destruct (scan_markets_spec sqrtQ fetch now post (Config.TICKERS tickers_env)
              (Config.DISCORD_WEBHOOK webhook_env) sys) as (sys' & evs & Hm & _ & Hdom & _).
  exists sys'. split; [exact Hm|]. split; [|split].
  - intros E. apply (dom_empty_iff_L (D := gset string)) in E.
    rewrite Hdom in E. unfold instruments, Config.TICKERS in E.
    pose proof (split_comma_nonempty (Config.getenv tickers_env "TSLA,AMD,GME,NVDA,IONQ"))
      as Hne.
    destruct (Config.split_comma (Config.getenv tickers_env "TSLA,AMD,GME,NVDA,IONQ"))
      as [|raw rest]; [congruence|].
    assert (upper (strip raw) ∈ (∅ : gset string)); [|set_solver].
    rewrite <- E. set_solver.
  - intros ->. rewrite Hdom. unfold instruments.
    change ((fun raw => upper (strip raw)) <$> Config.TICKERS None)
      with ["TSLA"; "AMD"; "GME"; "NVDA"; "IONQ"]%string.
    set_solver.
  - intros ->. rewrite Hdom. unfold instruments.
    change ((fun raw => upper (strip raw)) <$> Config.TICKERS (Some ""%string))
      with [""%string].
    set_solver.
Qed.

(** ** The provider's response *)

Ltac parse_step :=
  cbn [mbind result_bind bind Provider.subscript Provider.subscript0 Provider.truthy
       negb Provider.chart_not_in];
  unfold getitem.

Section ProviderFacts.

Context {World : Type}.
Variable requests_get_json : string -> World -> result json * World.

Local Abbreviation url_of symbol :=
  ("https://query1.finance.yahoo.com/v8/finance/chart/" ++ symbol)%string.

Lemma fetch_of_parse symbol (w w' : World) data :
  requests_get_json (url_of symbol) w = (Ok data, w') ->
  Provider.fetch_yahoo_data requests_get_json symbol w
  = (match Provider.parse_chart data with Ok f => f | Raise _ => Absent end, w').
Proof.
  intros H. unfold Provider.fetch_yahoo_data. rewrite H.
  cbn [mbind result_bind bind]. by destruct (Provider.parse_chart data).
Qed.

(** X18. [fetch_yahoo_data] returns [None] when the request fails,
    and when the decoded body is anything but a dictionary with the
    key [chart]. *)
Theorem fetch_absent_without_chart symbol (w w' : World) r :
  requests_get_json (url_of symbol) w = (r, w') ->
  (forall m, r = Ok (JObj m) -> m !! "chart" = None) ->
  Provider.fetch_yahoo_data requests_get_json symbol w = (Absent, w').
Proof.
  intros Hget Hno. destruct r as [data|msg].
  2:{ unfold Provider.fetch_yahoo_data. rewrite Hget. reflexivity. }
  rewrite (fetch_of_parse symbol w w' data Hget). f_equal.
  unfold Provider.parse_chart.
  destruct data as [| | | s | l | m]; try reflexivity.
  - cbn [Provider.chart_not_in mbind result_bind bind].
    destruct (index 0 "chart" s); reflexivity.
  - cbn [Provider.chart_not_in mbind result_bind bind].
    destruct (existsb Provider.is_chart l); reflexivity.
  - cbn [Provider.chart_not_in mbind result_bind bind].
    rewrite (Hno m eq_refl). reflexivity.
Qed.

(** X19. [fetch_yahoo_data] returns [None] when [chart] is no
    dictionary, when it has no [result], and when its [result] is
    empty or null (or anything else Python takes for false). *)
Theorem fetch_absent_without_result symbol (w w' : World) m chart :
  requests_get_json (url_of symbol) w = (Ok (JObj m), w') ->
  m !! "chart" = Some chart ->
  (forall cm results,
      chart = JObj cm -> cm !! "result" = Some results ->
      Provider.truthy results = false) ->
  Provider.fetch_yahoo_data requests_get_json symbol w = (Absent, w').
Proof.
  intros Hget Hc Hres.
  rewrite (fetch_of_parse symbol w w' _ Hget). f_equal.
  unfold Provider.parse_chart.
  parse_step. rewrite Hc. parse_step.
  destruct chart as [| | | | |cm]; try reflexivity.
  parse_step.
  destruct (cm !! "result") as [results|] eqn:Hr; [|reflexivity].
  parse_step. rewrite (Hres cm results eq_refl Hr). reflexivity.
Qed.

(** X20. The first result must carry a [timestamp], although the
    frame is built without it: a response whose first result has no
    such key gives [None], whatever its quotes. *)
Theorem fetch_absent_without_timestamp symbol (w w' : World) m cm rm rest :
  requests_get_json (url_of symbol) w = (Ok (JObj m), w') ->
  m !! "chart" = Some (JObj cm) ->
  cm !! "result" = Some (JArr (JObj rm :: rest)) ->
  rm !! "timestamp" = None ->
  Provider.fetch_yahoo_data requests_get_json symbol w = (Absent, w').
Proof.
  intros Hget Hc Hr Ht.
  rewrite (fetch_of_parse symbol w w' _ Hget). f_equal.
  unfold Provider.parse_chart.
  parse_step. rewrite Hc. parse_step. rewrite Hr. parse_step. rewrite Ht. reflexivity.
Qed.

(** The path [fetch_yahoo_data] follows in a response. *)
Lemma parse_chart_path m cm rm rest ts im qm qrest close_ high_ low_ volume_ :
  m !! "chart" = Some (JObj cm) ->
  cm !! "result" = Some (JArr (JObj rm :: rest)) ->
  rm !! "timestamp" = Some ts ->
  rm !! "indicators" = Some (JObj im) ->
  im !! "quote" = Some (JArr (JObj qm :: qrest)) ->
  qm !! "close" = Some close_ -> qm !! "high" = Some high_ ->
  qm !! "low" = Some low_ -> qm !! "volume" = Some volume_ ->
  Provider.parse_chart (JObj m) = Provider.build_frame close_ high_ low_ volume_.
Proof.
  intros Hc Hr Ht Hi Hq H1 H2 H3 H4.
  unfold Provider.parse_chart.
  parse_step. rewrite Hc. parse_step. rewrite Hr. parse_step. rewrite Ht.
  parse_step. rewrite Hi. parse_step. rewrite Hq. parse_step. rewrite H1.
  parse_step. rewrite H2. parse_step. rewrite H3. parse_step. rewrite H4.
  reflexivity.
Qed.

(** X21. Of a response, [fetch_yahoo_data] reads the first result and
    its first quote only.  When the four arrays of that quote hold
    numbers and nulls, the outcome is the frame of their complete rows
    if they have one length, and [None] if they have not. *)
Theorem fetch_reads_first_quote symbol (w w' : World)
    m cm rm rest ts im qm qrest close_ high_ low_ volume_ cs hs ls vs :
  requests_get_json (url_of symbol) w = (Ok (JObj m), w') ->
  m !! "chart" = Some (JObj cm) ->
  cm !! "result" = Some (JArr (JObj rm :: rest)) ->
  rm !! "timestamp" = Some ts ->
  rm !! "indicators" = Some (JObj im) ->
  im !! "quote" = Some (JArr (JObj qm :: qrest)) ->
  qm !! "close" = Some close_ -> qm !! "high" = Some high_ ->
  qm !! "low" = Some low_ -> qm !! "volume" = Some volume_ ->
  Provider.column close_ = Some cs -> Provider.column high_ = Some hs ->
  Provider.column low_ = Some ls -> Provider.column volume_ = Some vs ->
  Provider.fetch_yahoo_data requests_get_json symbol w
  = (if decide (length cs = length hs /\ length hs = length ls /\ length ls = length vs)
     then Frame (Provider.dropna cs hs ls vs)
     else Absent, w').
Proof.
  intros Hget Hc Hr Ht Hi Hq H1 H2 H3 H4 C1 C2 C3 C4.
  rewrite (fetch_of_parse symbol w w' _ Hget). f_equal.
  rewrite (parse_chart_path m cm rm rest ts im qm qrest close_ high_ low_ volume_)
    by assumption.
  unfold Provider.build_frame. rewrite C1, C2, C3, C4.
  destruct (decide (length cs = length hs /\ length hs = length ls
                    /\ length ls = length vs)) as [(E1 & E2 & E3)|Hne].
  - rewrite E1, E2, E3, !Nat.eqb_refl. reflexivity.
  - destruct (length cs =? length hs)%nat eqn:E1; [|reflexivity].
    destruct (length hs =? length ls)%nat eqn:E2; [|reflexivity].
    destruct (length ls =? length vs)%nat eqn:E3; [|reflexivity].
    apply Nat.eqb_eq in E1, E2, E3. tauto.
Qed.

End ProviderFacts.

(** X22. [dropna] keeps the complete rows and only those, in their
    order: a candle is in the frame exactly when some row of the four
    columns holds its four values, the closes of the frame are a
    subsequence of the close column, and nothing is dropped from
    columns without nulls. *)
Theorem dropna_keeps_complete_rows (cs hs ls vs : list (option Q)) :
  length cs = length hs -> length hs = length ls -> length ls = length vs ->
  (forall k, k ∈ Provider.dropna cs hs ls vs
             <-> exists i, cs !! i = Some (Some (close k)) /\ hs !! i = Some (Some (high k))
                           /\ ls !! i = Some (Some (low k))
                           /\ vs !! i = Some (Some (volume k)))
  /\ sublist (Some <$> (close <$> Provider.dropna cs hs ls vs)) cs
  /\ (Forall is_Some cs -> Forall is_Some hs -> Forall is_Some ls -> Forall is_Some vs ->
      length (Provider.dropna cs hs ls vs) = length cs).
Proof.
  revert hs ls vs. induction cs as [|c cs IH]; intros hs ls vs E1 E2 E3.
  - simpl. split; [|split; [constructor|reflexivity]].
    intros k. split; [intros H; by apply elem_of_nil in H|].
    intros (i & H & _). by rewrite lookup_nil in H.
  - destruct hs as [|h hs]; [discriminate|]. destruct ls as [|l ls]; [discriminate|].
    destruct vs as [|v vs]; [discriminate|]. simpl in E1, E2, E3.
    destruct (IH hs ls vs) as (Hmem & Hsub & Hfull); [lia..|].
    assert (Hrows : forall k,
               (exists i, (c :: cs) !! i = Some (Some (close k))
                          /\ (h :: hs) !! i = Some (Some (high k))
                          /\ (l :: ls) !! i = Some (Some (low k))
                          /\ (v :: vs) !! i = Some (Some (volume k)))
               <-> (c = Some (close k) /\ h = Some (high k) /\ l = Some (low k)
                    /\ v = Some (volume k))
                   \/ k ∈ Provider.dropna cs hs ls vs).
    { intros k. rewrite Hmem. split.
      - intros ([|i] & H1 & H2 & H3 & H4); simpl in *.
        + left. repeat split; congruence.
        + right. eauto.
      - intros [(-> & -> & -> & ->)|(i & H)].
        + exists 0%nat. repeat split.
        + exists (S i). exact H. }
    cbn [Provider.dropna].
    destruct c as [c|], h as [h|], l as [l|], v as [v|]; cbn [Provider.complete_row].
    all: split; [|split].
    all: try (intros k; rewrite Hrows; split;
              [intros H; by right|intros [(? & ? & ? & ?)|H]; [discriminate|exact H]]).
    all: try (apply sublist_cons; exact Hsub).
    all: try (intros F1 F2 F3 F4; inversion F1 as [|? ? [? ?]]; inversion F2 as [|? ? [? ?]];
              inversion F3 as [|? ? [? ?]]; inversion F4 as [|? ? [? ?]]; discriminate).
    + intros k. rewrite Hrows, elem_of_cons. split.
      * intros [->|H]; [left; repeat split|by right].
      * intros [(Hc & Hh & Hl & Hv)|H]; [left|by right].
        destruct k as [kc kh kl kv]. simpl in *. congruence.
    + simpl. apply sublist_skip. exact Hsub.
    + intros F1 F2 F3 F4. simpl. f_equal.
      inversion F1; inversion F2; inversion F3; inversion F4; subst. by apply Hfull.
Qed.

(** ** The further properties at concrete inputs *)

Lemma flat_close_no_momentum_witness :
  Forall (fun k => (close k == 100)%Q) (replicate 46 (candle 100 (1 # 2) 1000))
  /\ (calculate_squeeze sqrt6 (replicate 46 (candle 100 (1 # 2) 1000)) 20 2 (3 # 2) (3 # 2)).2
     !! "macd_bullish" = Some (PyBool false)
  /\ (calculate_squeeze sqrt6 (replicate 46 (candle 100 (1 # 2) 1000)) 20 2 (3 # 2) (3 # 2)).1
     = false.
Proof.
  assert (HF : Forall (fun k => (close k == 100)%Q) (replicate 46 (candle 100 (1 # 2) 1000)))
    by (apply Forall_replicate; reflexivity).
  split; [exact HF|].
  apply (flat_close_no_momentum sqrt6 (replicate 46 (candle 100 (1 # 2) 1000)) 20 2
           (3 # 2) (3 # 2) 100).
  - lia.
  - vm_compute; discriminate.
  - exact HF.
Defined.

Lemma high_volume_antitone_witness :
  (3 # 2 <= 2)%Q
  /\ (calculate_squeeze sqrt6
        (replicate 45 (candle 100 (1 # 2) 1000) ++ [candle 100 (1 # 2) 5000])
        20 2 (3 # 2) 2).2 !! "high_volume" = Some (PyBool true)
  /\ (calculate_squeeze sqrt6
        (replicate 45 (candle 100 (1 # 2) 1000) ++ [candle 100 (1 # 2) 5000])
        20 2 (3 # 2) (3 # 2)).2 !! "high_volume" = Some (PyBool true).
Proof.
  assert (Hle : (3 # 2 <= 2)%Q) by (vm_compute; discriminate).
  assert (Hhv : (calculate_squeeze sqrt6
                   (replicate 45 (candle 100 (1 # 2) 1000) ++ [candle 100 (1 # 2) 5000])
                   20 2 (3 # 2) 2).2 !! "high_volume" = Some (PyBool true)).
  { destruct (calculate_squeeze_fields sqrt6
                (replicate 45 (candle 100 (1 # 2) 1000) ++ [candle 100 (1 # 2) 5000])
                20 2 (3 # 2) 2 (candle 100 (1 # 2) 5000))
      as (_ & _ & _ & _ & H & _);
      [lia|vm_compute; discriminate|reflexivity|].
    rewrite H. vm_compute. reflexivity. }
  split; [exact Hle|]. split; [exact Hhv|].
  apply (high_volume_antitone sqrt6 _ 20 2 (3 # 2) (3 # 2) 2 Hle); [|exact Hhv].
  apply Forall_drop, Forall_app. split.
  - apply Forall_replicate. vm_compute; discriminate.
  - constructor; [vm_compute; discriminate|constructor].
Defined.

Lemma no_range_no_squeeze_witness :
  (0 <= 2)%Q
  /\ (calculate_squeeze sqrt6 (replicate 46 (mkCandle 100 100 100 1000)) 20 2 (3 # 2) (3 # 2)).2
     !! "in_squeeze" ≠ Some (PyBool true).
Proof.
  assert (Hbb : (0 <= 2)%Q) by (vm_compute; discriminate).
  split; [exact Hbb|].
  apply (no_range_no_squeeze sqrt6 (replicate 46 (mkCandle 100 100 100 1000)) 20 2
           (3 # 2) (3 # 2) sqrt6_nonneg Hbb).
  apply Forall_drop, Forall_replicate. reflexivity.
Defined.

Lemma price_and_volume_of_last_row_witness :
  last df_signal = Some (candle (1001 # 10) (1 # 2) 10000)
  /\ exists z,
       (calculate_squeeze sqrt6 df_signal 20 2 (3 # 2) (3 # 2)).2 !! "price"
       = Some (PyFloat (1001 # 10))
       /\ (calculate_squeeze sqrt6 df_signal 20 2 (3 # 2) (3 # 2)).2 !! "volume"
          = Some (PyInt z)
       /\ (inject_Z z <= 10000)%Q /\ (10000 < inject_Z z + 1)%Q.
Proof.
  split; [reflexivity|].
  apply (price_and_volume_of_last_row sqrt6 df_signal 20 2 (3 # 2) (3 # 2)
           (candle (1001 # 10) (1 # 2) 10000)).
  - lia.
  - vm_compute; discriminate.
  - reflexivity.
  - vm_compute; discriminate.
Defined.

Lemma fetch_absent_without_chart_witness :
  Provider.fetch_yahoo_data
    (fun (_ : string) (w : nat) => (Ok (JObj {[ "error" := JStr "Not Found" ]}), S w))
    "TSLA" 0%nat
  = (Absent, 1%nat).
Proof.
  apply (fetch_absent_without_chart
           (fun (_ : string) (w : nat) => (Ok (JObj {[ "error" := JStr "Not Found" ]}), S w))
           "TSLA" 0%nat 1%nat (Ok (JObj {[ "error" := JStr "Not Found" ]}))).
  - reflexivity.
  - intros m [= <-]. reflexivity.
Defined.

Lemma fetch_absent_without_result_witness :
  Provider.fetch_yahoo_data
    (fun (_ : string) (w : nat) =>
       (Ok (JObj {[ "chart" := JObj {[ "result" := JNull ]} ]}), S w))
    "TSLA" 0%nat
  = (Absent, 1%nat).
Proof.
  apply (fetch_absent_without_result
           (fun (_ : string) (w : nat) =>
              (Ok (JObj {[ "chart" := JObj {[ "result" := JNull ]} ]}), S w))
           "TSLA" 0%nat 1%nat {[ "chart" := JObj {[ "result" := JNull ]} ]}
           (JObj {[ "result" := JNull ]})).
  - reflexivity.
  - reflexivity.
  - intros cm results [= <-] H. vm_compute in H. injection H as <-. reflexivity.
Defined.

Lemma fetch_absent_without_timestamp_witness :
  Provider.fetch_yahoo_data
    (fun (_ : string) (w : nat) =>
       (Ok (JObj {[ "chart" :=
              JObj {[ "result" := JArr [JObj {[ "indicators" := JObj ∅ ]}] ]} ]}), S w))
    "TSLA" 0%nat
  = (Absent, 1%nat).
Proof.
  apply (fetch_absent_without_timestamp
           (fun (_ : string) (w : nat) =>
              (Ok (JObj {[ "chart" :=
                     JObj {[ "result" := JArr [JObj {[ "indicators" := JObj ∅ ]}] ]} ]}),
               S w))
           "TSLA" 0%nat 1%nat
           {[ "chart" := JObj {[ "result" := JArr [JObj {[ "indicators" := JObj ∅ ]}] ]} ]}
           {[ "result" := JArr [JObj {[ "indicators" := JObj ∅ ]}] ]}
           {[ "indicators" := JObj ∅ ]} []); reflexivity.
Defined.

Lemma fetch_reads_first_quote_witness :
  exists frame,
    Provider.fetch_yahoo_data
      (fun (_ : string) (w : nat) =>
         (Ok (chart_body (JArr [JNum 1; JNum 2])
                (JArr [JNum 100; JNull]) (JArr [JNum 101; JNum 102])
                (JArr [JNum 99; JNum 98]) (JArr [JNum 1000; JNum 2000])), S w))
      "TSLA" 0%nat
    = (frame, 1%nat)
    /\ frame = Frame [mkCandle 100 101 99 1000].
Proof.
  eexists. split.
  - eapply (fetch_reads_first_quote
              (fun (_ : string) (w : nat) =>
                 (Ok (chart_body (JArr [JNum 1; JNum 2])
                        (JArr [JNum 100; JNull]) (JArr [JNum 101; JNum 102])
                        (JArr [JNum 99; JNum 98]) (JArr [JNum 1000; JNum 2000])), S w))
              "TSLA" 0%nat 1%nat); reflexivity.
  - reflexivity.
Defined.

Lemma dropna_keeps_complete_rows_witness :
  length [Some 100%Q; None] = length [Some 101%Q; Some 102%Q]
  /\ sublist
       (Some <$> (close <$> Provider.dropna [Some 100%Q; None] [Some 101%Q; Some 102%Q]
                              [Some 99%Q; Some 98%Q] [Some 1000%Q; Some 2000%Q]))
       [Some 100%Q; None].
Proof.
  split; [reflexivity|].
  apply (dropna_keeps_complete_rows [Some 100%Q; None] [Some 101%Q; Some 102%Q]
           [Some 99%Q; Some 98%Q] [Some 1000%Q; Some 2000%Q] eq_refl eq_refl eq_refl).
Defined.

(** ** The scan, turn by turn *)

Section ScanTurns.

Context {World : Type}.
Variable sqrtQ : Q -> Q.
Variable fetch_yahoo_data : string -> World -> option DataFrame * World.
Variable now_isoformat : World -> string * World.
Variable requests_post : string -> string -> pyval -> World -> World.
Variable TICKERS : list string.
Variable DISCORD_WEBHOOK : string.

Local Abbreviation loop_body' :=
  (loop_body sqrtQ fetch_yahoo_data now_isoformat requests_post DISCORD_WEBHOOK).
Local Abbreviation scan_loop' :=
  (scan_loop sqrtQ fetch_yahoo_data now_isoformat requests_post DISCORD_WEBHOOK).
Local Abbreviation scan_markets' :=
  (scan_markets sqrtQ fetch_yahoo_data now_isoformat requests_post TICKERS DISCORD_WEBHOOK).
Local Abbreviation replay' :=
  (replay fetch_yahoo_data now_isoformat requests_post DISCORD_WEBHOOK).
Local Abbreviation turn_record' := (turn_record sqrtQ fetch_yahoo_data now_isoformat).

(** Whatever a turn of the loop returns, what it has put in
    [temp_data] is the record of its own ticker. *)
Lemma loop_body_records raw temp (sys : System World) t s :
  loop_body' raw temp sys = Ok (t, s) ->
  t = <[upper (strip raw) := turn_record' (upper (strip raw)) (world sys)]> temp.
Proof.
  unfold loop_body, turn_record.
  destruct (fetch_yahoo_data (upper (strip raw)) (world sys)) as [[df|] w1].
  2:{ intros [= <- _]. reflexivity. }
  destruct (length df <? 50)%nat.
  { intros [= <- _]. reflexivity. }
  destruct (calculate_squeeze sqrtQ df 20 2 (3 # 2) (3 # 2)) as [flag details].
  destruct (now_isoformat w1) as [ts w2]. cbn [fst snd].
  destruct flag.
  - destruct (getitem (<["timestamp" := PyStr ts]> details) "price") as [price|msg];
      cbn [mbind result_bind bind]; [|discriminate].
    intros [= <- _]. reflexivity.
  - intros [= <- _]. reflexivity.
Qed.

(** One turn of the loop in full. *)
Lemma loop_body_turn raw temp (sys : System World) :
  let k := upper (strip raw) in
  let d := turn_record' k (world sys) in
  loop_body' raw temp sys
  = Ok (<[k := d]> temp,
        mkSystem (squeeze_data sys) (replay' (turn_events (k, d)) (world sys))
          (trace sys ++ turn_events (k, d))).
Proof.
  cbn zeta.
  destruct (loop_body_replay sqrtQ fetch_yahoo_data now_isoformat requests_post
              DISCORD_WEBHOOK raw temp sys) as (d & Hb & _).
  cbn zeta in Hb.
  pose proof (loop_body_records raw temp sys _ _ Hb) as Heq.
  assert (Hd : d = turn_record' (upper (strip raw)) (world sys)).
  { apply (f_equal (fun m : Snapshot => m !! upper (strip raw))) in Heq.
    rewrite !lookup_insert_eq in Heq. congruence. }
  rewrite Hb, <- Hd. reflexivity.
Qed.

(** The loop as a sequence of turns: one per ticker, in order, each
    recording what its own fetch gave, in the world the turns before
    it have left. *)
Lemma scan_loop_turns tickers temp (sys : System World) :
  exists temp' recs,
    scan_loop' tickers temp sys
    = Ok (temp',
          mkSystem (squeeze_data sys) (replay' (flat_map turn_events recs) (world sys))
            (trace sys ++ flat_map turn_events recs))
    /\ recs.*1 = (fun raw => upper (strip raw)) <$> tickers
    /\ forall pre k d post,
         recs = pre ++ (k, d) :: post ->
         d = turn_record' k (replay' (flat_map turn_events pre) (world sys)).
Proof.
  revert temp sys. induction tickers as [|raw rest IH]; intros temp sys.
  - exists temp, []. simpl. rewrite app_nil_r. destruct sys.
    split; [reflexivity|]. split; [reflexivity|].
    intros [|? pre] k d post H; discriminate.
  - pose proof (loop_body_turn raw temp sys) as Hb. cbn zeta in Hb.
    simpl scan_loop. rewrite Hb. cbn [mbind result_bind bind].
    match goal with
    | |- context [scan_loop _ _ _ _ _ rest ?t ?s] =>
        destruct (IH t s) as (temp' & recs & Hl & Hkeys & Hown)
    end.
    cbn [squeeze_data world trace] in Hl, Hown. rewrite Hl.
    exists temp',
      ((upper (strip raw), turn_record' (upper (strip raw)) (world sys)) :: recs).
    cbn [flat_map]. split; [by rewrite replay_app, app_assoc|].
    split; [cbn [fmap list_fmap fst]; by rewrite Hkeys|].
    intros pre k d post H. destruct pre as [|r pre]; simpl in H.
    + injection H as <- <- _. reflexivity.
    + injection H as <- ->. cbn [flat_map]. rewrite replay_app.
      by eapply Hown.
Qed.

(** [scan_markets], with everything the lemmas on the loop say of one
    and the same list of events. *)
Lemma scan_markets_turns (sys : System World) :
  exists sys' recs,
    scan_markets' sys = Ok sys'
    /\ trace sys' = trace sys ++ flat_map turn_events recs ++ [EvPublish (squeeze_data sys')]
    /\ world sys' = replay' (flat_map turn_events recs) (world sys)
    /\ recs.*1 = (fun raw => upper (strip raw)) <$> TICKERS
    /\ (forall pre k d post,
          recs = pre ++ (k, d) :: post ->
          d = turn_record' k (replay' (flat_map turn_events pre) (world sys)))
    /\ (forall k, squeeze_data sys' !! k = last_record k (flat_map turn_events recs))
    /\ dom (squeeze_data sys') = instruments TICKERS
    /\ List.filter is_publish (flat_map turn_events recs) = []
    /\ List.filter is_alert (flat_map turn_events recs)
       = omap alert_for (flat_map turn_events recs)
    /\ length (List.filter is_record (flat_map turn_events recs)) = length TICKERS.
Proof.
  destruct (scan_loop_turns TICKERS ∅ sys) as (temp & recs & Hl & Hkeys & Hown).
  destruct (scan_loop_replay sqrtQ fetch_yahoo_data now_isoformat requests_post
              DISCORD_WEBHOOK TICKERS ∅ sys) as (temp2 & evs2 & Hl2 & Hlast & _).
  destruct (scan_loop_spec sqrtQ fetch_yahoo_data now_isoformat requests_post
              DISCORD_WEBHOOK TICKERS ∅ sys)
    as (temp3 & w3 & evs3 & Hl3 & Hdom & _ & _ & Hpub & Hal & Hrec).
  rewrite Hl in Hl2, Hl3.
  injection Hl2 as <- _ Hev2. apply app_inv_head in Hev2. subst evs2.
  injection Hl3 as <- _ Hev3. apply app_inv_head in Hev3. subst evs3.
  unfold scan_markets. rewrite Hl. cbn [mbind result_bind bind].
  eexists _, recs. split; [reflexivity|]. cbn [publish squeeze_data world trace].
  split; [by rewrite app_assoc|]. split; [reflexivity|]. split; [exact Hkeys|].
  split; [exact Hown|]. split.
  { intros k. rewrite Hlast, lookup_empty.
    by destruct (last_record k (flat_map turn_events recs)). }
  split.
  { rewrite Hdom, dom_empty_L. unfold instruments. set_solver. }
  auto.
Qed.


(** C7, as the code has it. A scan alerts inside its loop and
    publishes once, last.  Its events are those of its turns, one turn
    per configured ticker in order: the record of the ticker, followed
    at once, before the next ticker is fetched, by the alert for that
    ticker when the record is a Signal variant with [signal = True],
    with that record's symbol and price, and by no alert otherwise.
    The world has seen the calls in the order of these events, and the
    publication of the snapshot follows them all. *)
Theorem alerts_then_publish (sys : System World) :
  exists sys' recs,
    scan_markets' sys = Ok sys'
    /\ trace sys' = trace sys ++ flat_map turn_events recs ++ [EvPublish (squeeze_data sys')]
    /\ recs.*1 = (fun raw => upper (strip raw)) <$> TICKERS
    /\ (forall pre k d post,
          recs = pre ++ (k, d) :: post ->
          d = turn_record' k (replay' (flat_map turn_events pre) (world sys)))
    /\ world sys' = replay' (flat_map turn_events recs) (world sys)
    /\ List.filter is_publish (flat_map turn_events recs) = []
    /\ length (List.filter is_record (flat_map turn_events recs)) = length TICKERS
    /\ List.filter is_alert (flat_map turn_events recs)
       = omap alert_for (flat_map turn_events recs).
Proof.
  destruct (scan_markets_turns sys)
    as (sys' & recs & Hm & Htr & Hw & Hkeys & Hown & _ & _ & Hpub & Hal & Hrec).
  exists sys', recs. auto 10.
Qed.


End ScanTurns.


(** X2. A lookback below one is refused: on a frame of at least
    [L + 26] rows, [ewm] raises on the span, the handler catches it, and
    [calculate_squeeze] returns [False] with an Error variant carrying
    pandas' message for the span. *)
Theorem lookback_below_one_is_refused sqrtQ (df : DataFrame) (L : Z) (bb kc vol : Q) :
  L + 26 <= Z.of_nat (length df) -> L < 1 ->
  calculate_squeeze sqrtQ df L bb kc vol
  = (false, error_details "span must satisfy: span >= 1")
  /\ is_error_variant (calculate_squeeze sqrtQ df L bb kc vol).2
       "span must satisfy: span >= 1".
Proof.
  intros Hlen HL. rewrite calculate_squeeze_bad_span by assumption.
  split; [reflexivity|]. split; reflexivity.
Qed.

Lemma lookback_below_one_is_refused_witness :
  0 + 26 <= Z.of_nat (length df_signal) /\ 0 < 1
  /\ calculate_squeeze sqrt6 df_signal 0 2 (3 # 2) (3 # 2)
     = (false, error_details "span must satisfy: span >= 1").
Proof.
  split; [vm_compute; discriminate|]. split; [lia|].
  apply (lookback_below_one_is_refused sqrt6 df_signal 0 2 (3 # 2) (3 # 2)).
  - vm_compute; discriminate.
  - lia.
Defined.
